(** * pykeg/FlowController.py: the flow-controller protocol engine

    A shallow embedding of [FlowController], [StatusPacket] and
    [FlowSimulator], and the properties of frame validation, packet decoding,
    tick accumulation and command dispatch.

    Conventions of the embedding:
    - a Python 2 [str] is a [string] (a list of 8-bit characters); [ord] maps a
      character to an integer in 0..255;
    - Python integers are unbounded, hence [Z];
    - the temperature is a binary64 float, modelled bit-exactly with the
      specification floats of [SpecFloat] at precision 53;
    - [time.time()] is an input of the operations that read the clock.  The
      controller only stores it.  The simulator computes with it: there a
      time stamp is a binary64 float and the arithmetic is that of
      [SpecFloat], operation by operation;
    - an object is a record, a method a function from the object to the
      updated object and the result of the call; an exception leaves the
      object as it was when it was raised. *)

From Stdlib Require Import ZArith List String Ascii Bool Lia.
From Stdlib Require Import QArith Qpower Lqa.
From Stdlib Require Import Floats.SpecFloat.
Import ListNotations.

Local Open Scope string_scope.
Local Open Scope list_scope.
Local Open Scope Z_scope.

(** ** Python strings *)

Module Py.

(** [ord(c)] *)
Definition ord (c : ascii) : Z := Z.of_N (N_of_ascii c).

(** [map(ord, s)] *)
Definition ords (s : string) : list Z := map ord (list_ascii_of_string s).

(** [s.startswith(p)] *)
Definition startswith (s p : string) : bool := String.prefix p s.

(** [s.endswith(p)] *)
Definition endswith (s p : string) : bool :=
  (String.length p <=? String.length s)%nat
  && String.eqb (substring (String.length s - String.length p) (String.length p) s) p.

(** [s[a:-b]] for literal [a >= 0] and [b > 0]: the stop index is
    [max (len s - b) 0] and an empty range gives the empty string. *)
Definition slice (a b : nat) (s : string) : string :=
  substring a (String.length s - b - a) s.

End Py.

(** The two-byte end sequence ["\r\n"]. *)
Definition CRLF : string := String "013" (String "010" EmptyString).

(** ** Results of calls *)

Inductive exn : Type :=
| SystemExit (code : Z)
| IndexError
| AttributeError
| OverflowError
| ValueError.

(** The result of a call: it returns a value, raises an exception, or does
    not return (it waits for the lock, or for input beyond the given trace). *)
Inductive result (A : Type) : Type :=
| Return (a : A)
| Raise (e : exn)
| Blocks.
Arguments Return {A} a.
Arguments Raise {A} e.
Arguments Blocks {A}.

(** ** Binary64 arithmetic *)

Module Float.

Definition prec : Z := 53.
Definition emax : Z := 1024.

Definition float : Type := spec_float.

(** Conversion of a Python integer to a float, as done by [int * float]. *)
Definition of_int (z : Z) : float := binary_normalize prec emax z 0 false.

(** The float [m * 2^e]. *)
Definition of_dyadic (m e : Z) : float := binary_normalize prec emax m e false.

Definition mul (x y : float) : float := SFmul prec emax x y.

Definition sub (x y : float) : float := SFsub prec emax x y.

(** [int(x)]: truncation towards zero; an infinity raises [OverflowError]
    and a NaN [ValueError]. *)
Definition to_int (x : float) : result Z :=
  match x with
  | S754_zero _ => Return 0
  | S754_finite s m e => Return (cond_Zopp s (Z.shiftl (Z.pos m) e))
  | S754_infinity _ => Raise OverflowError
  | S754_nan => Raise ValueError
  end.

(** A value [time.time()] can return: a binary64 number that is finite and
    not negative. *)
Definition is_time (x : float) : bool :=
  match x with
  | S754_zero _ => true
  | S754_finite false m e => bounded prec emax m e
  | _ => false
  end.

(** The literal [0.0625], which is [2^-4]. *)
Definition c0625 : float := Eval vm_compute in of_dyadic 1 (-4).

(** The literal [1.0]. *)
Definition one : float := Eval vm_compute in of_int 1.

(** The rational a float denotes; [None] for infinities and NaN. *)
Definition to_Q (x : float) : option Q :=
  match x with
  | S754_zero _ => Some (0 # 1)
  | S754_finite s m e =>
      Some (inject_Z (if s then Z.neg m else Z.pos m) * Qpower (2 # 1) e)%Q
  | _ => None
  end.

End Float.

(** ** StatusPacket *)

Record StatusPacket : Type := mkStatusPacket {
  temp : Float.float;
  ticks : Z;
  fridge : Z;
  valve : Z
}.

Definition FRIDGE_OFF : Z := 0.
Definition FRIDGE_ON : Z := 1.
Definition FRIDGE_UNKNOWN : Z := 2.
Definition VALVE_CLOSED : Z := 0.
Definition VALVE_OPEN : Z := 1.

(** [pkt[i]] for a literal index [i >= 0]. *)
Definition getitem (pkt : list Z) (i : nat) : result Z :=
  match nth_error pkt i with
  | Some v => Return v
  | None => Raise IndexError
  end.

(** [StatusPacket._ConvertTemp] *)
Definition _ConvertTemp (msbyte lsbyte : Z) : Float.float :=
  let val := Z.land msbyte 7 * 256 + lsbyte in
  let val := Float.mul (Float.of_int val) Float.c0625 in
  if negb (Z.shiftr msbyte 3 =? 0)
  then Float.mul (Float.of_int (-1)) val
  else val.

(** Sequencing of computations that may raise. *)
Definition rbind {A B : Type} (r : result A) (k : A -> result B) : result B :=
  match r with
  | Return a => k a
  | Raise e => Raise e
  | Blocks => Blocks
  end.

Notation "x <-? r ;; k" := (rbind r (fun x => k))
  (at level 61, r at next level, right associativity).

(** [StatusPacket.__init__]: the statements in source order, the operands of
    each from left to right. *)
Definition StatusPacket_init (pkt : list Z) : result StatusPacket :=
  b5 <-? getitem pkt 5 ;;
  b6 <-? getitem pkt 6 ;;
  let temp := _ConvertTemp b5 b6 in
  b3 <-? getitem pkt 3 ;;
  b4 <-? getitem pkt 4 ;;
  let ticks := b3 * 256 + b4 in
  b1 <-? getitem pkt 1 ;;
  b2 <-? getitem pkt 2 ;;
  Return (mkStatusPacket temp ticks b1 b2).

Definition ValveOpen (p : StatusPacket) : bool := valve p =? VALVE_OPEN.
Definition ValveClosed (p : StatusPacket) : bool := valve p =? VALVE_CLOSED.
Definition FridgeOn (p : StatusPacket) : bool := fridge p =? FRIDGE_ON.
Definition FridgeOff (p : StatusPacket) : bool := fridge p =? FRIDGE_OFF.

(** ** FlowController *)

(** The command bytes. *)
Definition CMD_STATUS : string := String "129" EmptyString.
Definition CMD_VALVEON : string := String "131" EmptyString.
Definition CMD_VALVEOFF : string := String "132" EmptyString.
Definition CMD_PUSHTICKS : string := String "135" EmptyString.
Definition CMD_NOPUSHTICKS : string := String "136" EmptyString.
Definition CMD_FRIDGEON : string := String "144" EmptyString.
Definition CMD_FRIDGEOFF : string := String "145" EmptyString.
Definition CMD_READTEMP : string := String "147" EmptyString.

Inductive level : Type := INFO | ERROR.

(** The attributes of a [FlowController] that its methods read or write.
    [devpipe_out] lists the strings passed to [self._devpipe.write], [log]
    the records passed to [self.logger], [stderr] the exceptions whose
    traceback [traceback.print_exc] printed; all three oldest first. *)
Record FlowController : Type := mkFlowController {
  QUIT : bool;
  _lock : bool;
  total_ticks : Z;
  last_fridge_time : Q;
  status : option StatusPacket;
  devpipe_out : list string;
  log : list (level * string);
  stderr : list exn
}.

(** A method: from the object to the object after the call and its result. *)
Definition M (A : Type) : Type := FlowController -> FlowController * result A.

Definition ret {A : Type} (a : A) : M A := fun fc => (fc, Return a).

Definition bind {A B : Type} (m : M A) (k : A -> M B) : M B :=
  fun fc =>
    match m fc with
    | (fc', Return a) => k a fc'
    | (fc', Raise e) => (fc', Raise e)
    | (fc', Blocks) => (fc', Blocks)
    end.

Definition raise {A : Type} (e : exn) : M A := fun fc => (fc, Raise e).

(** A constructor or function call that may raise and touches no attribute. *)
Definition lift {A : Type} (r : result A) : M A := fun fc => (fc, r).

(** [try: body except: handler] with a bare [except], which catches every
    exception, [SystemExit] included. *)
Definition try_except (body : M unit) (handler : exn -> M unit) : M unit :=
  fun fc =>
    match body fc with
    | (fc', Raise e) => handler e fc'
    | r => r
    end.

Declare Scope method_scope.
Delimit Scope method_scope with method.
Notation "x <- m ;; k" := (bind m (fun x => k))
  (at level 61, m at next level, right associativity) : method_scope.
Notation "m ;; k" := (bind m (fun _ => k))
  (at level 61, right associativity) : method_scope.

Definition set_QUIT (b : bool) : M unit := fun fc =>
  (mkFlowController b (_lock fc) (total_ticks fc) (last_fridge_time fc)
     (status fc) (devpipe_out fc) (log fc) (stderr fc), Return tt).

Definition set_lock (b : bool) : M unit := fun fc =>
  (mkFlowController (QUIT fc) b (total_ticks fc) (last_fridge_time fc)
     (status fc) (devpipe_out fc) (log fc) (stderr fc), Return tt).

Definition set_total_ticks (n : Z) : M unit := fun fc =>
  (mkFlowController (QUIT fc) (_lock fc) n (last_fridge_time fc)
     (status fc) (devpipe_out fc) (log fc) (stderr fc), Return tt).

Definition set_last_fridge_time (t : Q) : M unit := fun fc =>
  (mkFlowController (QUIT fc) (_lock fc) (total_ticks fc) t
     (status fc) (devpipe_out fc) (log fc) (stderr fc), Return tt).

Definition set_status (p : option StatusPacket) : M unit := fun fc =>
  (mkFlowController (QUIT fc) (_lock fc) (total_ticks fc) (last_fridge_time fc)
     p (devpipe_out fc) (log fc) (stderr fc), Return tt).

(** [self._devpipe.write(s)] *)
Definition devpipe_write (s : string) : M unit := fun fc =>
  (mkFlowController (QUIT fc) (_lock fc) (total_ticks fc) (last_fridge_time fc)
     (status fc) (devpipe_out fc ++ [s]) (log fc) (stderr fc), Return tt).

Definition logger (l : level) (msg : string) : M unit := fun fc =>
  (mkFlowController (QUIT fc) (_lock fc) (total_ticks fc) (last_fridge_time fc)
     (status fc) (devpipe_out fc) (log fc ++ [(l, msg)]) (stderr fc), Return tt).

(** [traceback.print_exc()] in the handler of [e]. *)
Definition print_exc (e : exn) : M unit := fun fc =>
  (mkFlowController (QUIT fc) (_lock fc) (total_ticks fc) (last_fridge_time fc)
     (status fc) (devpipe_out fc) (log fc) (stderr fc ++ [e]), Return tt).

(** [self._lock.acquire()]: takes the lock when it is free and waits
    otherwise. *)
Definition acquire : M unit := fun fc =>
  if _lock fc then (fc, Blocks) else set_lock true fc.

(** [self._lock.release()] *)
Definition release : M unit := set_lock false.

(** [sys.exit(code)] raises [SystemExit]. *)
Definition sys_exit {A : Type} (code : Z) : M A := raise (SystemExit code).

Local Open Scope method_scope.

Definition fridgeStatus : M Z := fun fc =>
  match status fc with
  | Some p => (fc, Return (fridge p))
  | None => (fc, Raise AttributeError)
  end.

Definition readTicks : M Z := fun fc => (fc, Return (total_ticks fc)).

Definition openValve : M unit :=
  acquire ;; devpipe_write CMD_VALVEON ;; release.

Definition closeValve : M unit :=
  acquire ;; devpipe_write CMD_VALVEOFF ;; release.

(** [now] is the value of [time.time()]. *)
Definition enableFridge (now : Q) : M unit :=
  set_last_fridge_time now ;;
  acquire ;; devpipe_write CMD_FRIDGEON ;; release.

Definition updateTemp : M unit :=
  acquire ;; devpipe_write CMD_READTEMP ;; release.

Definition disableFridge : M unit :=
  acquire ;; devpipe_write CMD_FRIDGEOFF ;; release.

Definition getStatus : M unit :=
  acquire ;; devpipe_write CMD_STATUS ;; release.

Definition stop : M unit :=
  set_QUIT true ;; getStatus.

(** [recvPacket]; [line] is the value of [self._devpipe.readline()]. *)
Definition recvPacket (line : string) : M (option StatusPacket) :=
  if String.eqb line "" then
    logger ERROR "ERROR: Flow device went away; exiting!" ;;
    sys_exit 1
  else if negb (Py.startswith line "M:") then
    (if Py.startswith line "K"
     then logger INFO ("Found board: " ++ Py.slice 0 2 line)%string
     else logger INFO "no start of packet; ignoring!") ;;
    ret None
  else if negb (Py.endswith line CRLF) then
    logger INFO "bad trailer; ignoring!" ;;
    ret None
  else
    p <- lift (StatusPacket_init (Py.ords (Py.slice 2 2 line))) ;;
    set_status (Some p) ;;
    (fun fc => set_total_ticks (total_ticks fc + ticks p) fc) ;;
    ret (Some p).

(** What the receive loop meets while it waits in [select], in order:
    another thread calls [stop]; [select] times out; or [select] reports the
    device readable and [readline] gives [line]. *)
Inductive event : Type :=
| Stop
| Timeout
| Readable (line : string).

(** The [while] loop of [statusLoop] over the events of [evs].  [waiting]
    says where the loop is: [false] at the test of [QUIT], [true] inside
    [select] with the test already passed.  A [stop] from another thread
    does not end the [select] in progress: [QUIT] is tested again only after
    that [select] has returned and, if the device was readable, the line has
    been through [recvPacket].  (A [stop] that lands between the return of
    [select] and the next test leaves the same object as one that lands
    during that [select].)  When [evs] is used up the loop is still waiting
    in [select]. *)
Fixpoint status_select (waiting : bool) (evs : list event)
  (fc : FlowController) {struct evs} : FlowController * result unit :=
  if negb waiting && QUIT fc then (fc, Return tt)
  else
    match evs with
    | [] => (fc, Blocks)
    | Stop :: evs' => status_select true evs' (fst (stop fc))
    | Timeout :: evs' => status_select false evs' fc
    | Readable line :: evs' =>
        match recvPacket line fc with
        | (fc', Return _) => status_select false evs' fc'
        | (fc', Raise e) => (fc', Raise e)
        | (fc', Blocks) => (fc', Blocks)
        end
    end.

Definition status_while (evs : list event) : M unit :=
  status_select false evs.

Definition statusLoop (evs : list event) : M unit :=
  try_except
    (logger INFO "status loop starting" ;;
     status_while evs ;;
     logger INFO "status loop exiting")
    (fun e => logger ERROR "packet read error" ;; print_exc e).

Definition run (evs : list event) : M unit := statusLoop evs.

(** [FlowController.__init__], after the device has been opened: the
    attributes are set, the fridge is switched off, the status is empty. *)
Definition FlowController_init : FlowController :=
  let fc := mkFlowController false false 0 (0 # 1) None [] [] [] in
  fst ((disableFridge ;; set_status None) fc).

(** ** FlowSimulator *)

Module FlowSimulator.

Record t : Type := mk {
  fridge : Z;
  valve : Z;
  ticks : Z;
  open_time : Float.float
}.

(** [__init__].  The integer 0 of [open_time] is only ever the right
    operand of a float subtraction, which converts it to 0.0. *)
Definition init : t := mk 0 0 0 (Float.of_int 0).

Definition fridgeStatus (s : t) : Z := fridge s.

(** [now] is the value of [time.time()]. *)
Definition readTicks (now : Float.float) (s : t) : result Z :=
  n <-? Float.to_int
          (Float.mul (Float.of_int 50) (Float.sub now (open_time s))) ;;
  Return (Z.max 0 n).

(** [now] is the value of [time.time()]. *)
Definition openValve (now : Float.float) (s : t) : t :=
  mk (fridge s) 1 (ticks s) now.

Definition closeValve (s : t) : t :=
  mk (fridge s) 0 (ticks s) (open_time s).

Definition enableFridge (s : t) : t :=
  mk 1 (valve s) (ticks s) (open_time s).

Definition disableFridge (s : t) : t :=
  mk 0 (valve s) (ticks s) (open_time s).

End FlowSimulator.

(** The receive path called once per line of [lines], whatever each call
    gives: the object afterwards and the results, in order. *)
Fixpoint recvPackets (lines : list string) (fc : FlowController)
  : FlowController * list (result (option StatusPacket)) :=
  match lines with
  | [] => (fc, [])
  | line :: lines' =>
      let (fc1, r) := recvPacket line fc in
      let (fc2, rs) := recvPackets lines' fc1 in
      (fc2, r :: rs)
  end.

(** The frame around a payload: ["M:"], the payload, CR LF. *)
Definition frame (payload : string) : string :=
  ("M:" ++ payload ++ CRLF)%string.

(** ** Vocabulary of the properties *)

(** The object after a packet [p] has been accepted. *)
Definition accepted (p : StatusPacket) (fc : FlowController) : FlowController :=
  mkFlowController (QUIT fc) (_lock fc) (total_ticks fc + ticks p)
    (last_fridge_time fc) (Some p) (devpipe_out fc) (log fc) (stderr fc).

(** The object after a record has been logged. *)
Definition logged (l : level) (msg : string) (fc : FlowController)
  : FlowController :=
  mkFlowController (QUIT fc) (_lock fc) (total_ticks fc) (last_fridge_time fc)
    (status fc) (devpipe_out fc) (log fc ++ [(l, msg)]) (stderr fc).

(** The case analysis behind every property of [recvPacket]. *)
Variant recv_case (line : string) (fc : FlowController)
  : FlowController * result (option StatusPacket) -> Prop :=
| RecvEof :
    line = "" ->
    recv_case line fc
      (logged ERROR "ERROR: Flow device went away; exiting!" fc,
       Raise (SystemExit 1))
| RecvDropped (msg : string) :
    line <> "" ->
    (Py.startswith line "M:" = false \/ Py.endswith line CRLF = false) ->
    recv_case line fc (logged INFO msg fc, Return None)
| RecvShort :
    Py.startswith line "M:" = true -> Py.endswith line CRLF = true ->
    (String.length (Py.slice 2 2 line) < 7)%nat ->
    recv_case line fc (fc, Raise IndexError)
| RecvAccepted (p : StatusPacket) :
    Py.startswith line "M:" = true -> Py.endswith line CRLF = true ->
    StatusPacket_init (Py.ords (Py.slice 2 2 line)) = Return p ->
    recv_case line fc (accepted p fc, Return (Some p)).

(** The string of the given byte values. *)
Definition chars (l : list nat) : string :=
  string_of_list_ascii (map ascii_of_nat l).

(** A status report as documented, five payload bytes: type 1, fridge on,
    valve closed, ticks 2 * 256 + 5. *)
Definition report5 : string := chars [1; 1; 0; 2; 5]%nat.

(** The same report followed by two more bytes, 0x00 and 0x10. *)
Definition report7 : string := chars [1; 1; 0; 2; 5; 0; 16]%nat.

(** A payload of three bytes. *)
Definition report3 : string := chars [1; 1; 0]%nat.

(** The temperature in the words of the specification:
    [(sign_byte & 0x07) * 256 + magnitude_byte], scaled by 0.0625, negated
    when the upper five bits of the sign byte are not all zero. *)
Definition temperature_spec (sign_byte magnitude_byte : Z) : Q :=
  let v :=
    (inject_Z (Z.land sign_byte 7 * 256 + magnitude_byte) * (625 # 10000))%Q in
  if Z.land sign_byte 248 =? 0 then v else (- v)%Q.

Definition byte_values : list Z := map Z.of_nat (seq 0 256).

Definition temperature_agrees (msbyte lsbyte : Z) : bool :=
  match Float.to_Q (_ConvertTemp msbyte lsbyte) with
  | Some q => Qeq_bool q (temperature_spec msbyte lsbyte)
  | None => false
  end.

(** The calls a client or the status loop makes on a controller. *)
Inductive call : Type :=
| OpenValve
| CloseValve
| EnableFridge (now : Q)
| UpdateTemp
| DisableFridge
| GetStatus
| StopCall
| ReadTicks
| RecvPacket (line : string).

(** The object after a call, and whether the call accepted a packet. *)
Definition do_call (c : call) (fc : FlowController) : FlowController * bool :=
  match c with
  | OpenValve => (fst (openValve fc), false)
  | CloseValve => (fst (closeValve fc), false)
  | EnableFridge now => (fst (enableFridge now fc), false)
  | UpdateTemp => (fst (updateTemp fc), false)
  | DisableFridge => (fst (disableFridge fc), false)
  | GetStatus => (fst (getStatus fc), false)
  | StopCall => (fst (stop fc), false)
  | ReadTicks => (fst (readTicks fc), false)
  | RecvPacket line =>
      let (fc', r) := recvPacket line fc in
      (fc', match r with Return (Some _) => true | _ => false end)
  end.

(** The object after the calls of [cs] in turn, and whether one of them
    accepted a packet. *)
Fixpoint do_calls (cs : list call) (fc : FlowController)
  : FlowController * bool :=
  match cs with
  | [] => (fc, false)
  | c :: cs' =>
      let (fc1, b1) := do_call c fc in
      let (fc2, b2) := do_calls cs' fc1 in
      (fc2, b1 || b2)
  end.


(** The object after the status loop has met end of stream. *)
Definition after_eof (fc : FlowController) : FlowController :=
  mkFlowController (QUIT fc) (_lock fc) (total_ticks fc) (last_fridge_time fc)
    (status fc) (devpipe_out fc)
    (log fc ++ [(INFO, "status loop starting");
                (ERROR, "ERROR: Flow device went away; exiting!");
                (ERROR, "packet read error")])
    (stderr fc ++ [SystemExit 1]).

(** What a call writes to the link when it completes. *)
Definition writes (c : call) : list string :=
  match c with
  | OpenValve => [CMD_VALVEON]
  | CloseValve => [CMD_VALVEOFF]
  | EnableFridge _ => [CMD_FRIDGEON]
  | UpdateTemp => [CMD_READTEMP]
  | DisableFridge => [CMD_FRIDGEOFF]
  | GetStatus => [CMD_STATUS]
  | StopCall => [CMD_STATUS]
  | ReadTicks => []
  | RecvPacket _ => []
  end.

(** The packets among the results of a run of [recvPacket] calls. *)
Definition packets_of (rs : list (result (option StatusPacket)))
  : list StatusPacket :=
  flat_map (fun r => match r with Return (Some p) => [p] | _ => [] end) rs.

(** A non-empty line that fails one of the two boundary checks. *)
Definition malformed (line : string) : bool :=
  negb (String.eqb line "")
  && negb (Py.startswith line "M:" && Py.endswith line CRLF).

(** A line that passes both boundary checks but whose payload is too short
    for the indices [StatusPacket.__init__] reads. *)
Definition short_frame (line : string) : bool :=
  Py.startswith line "M:" && Py.endswith line CRLF
  && (String.length (Py.slice 2 2 line) <? 7)%nat.

(** [FlowSimulator.start] and [FlowSimulator.stop] are [pass]. *)
Definition FlowSimulator_start (s : FlowSimulator.t) : FlowSimulator.t := s.
Definition FlowSimulator_stop (s : FlowSimulator.t) : FlowSimulator.t := s.

(** The calls made on a simulator. *)
Inductive sim_call : Type :=
| SimStart
| SimStop
| SimOpenValve (now : Float.float)
| SimCloseValve
| SimEnableFridge
| SimDisableFridge.

Definition sim_do (c : sim_call) (s : FlowSimulator.t) : FlowSimulator.t :=
  match c with
  | SimStart => FlowSimulator_start s
  | SimStop => FlowSimulator_stop s
  | SimOpenValve now => FlowSimulator.openValve now s
  | SimCloseValve => FlowSimulator.closeValve s
  | SimEnableFridge => FlowSimulator.enableFridge s
  | SimDisableFridge => FlowSimulator.disableFridge s
  end.

Definition sim_run (cs : list sim_call) (s : FlowSimulator.t)
  : FlowSimulator.t :=
  fold_left (fun s c => sim_do c s) cs s.

Definition is_fridge_call (c : sim_call) : bool :=
  match c with SimEnableFridge | SimDisableFridge => true | _ => false end.

Definition is_valve_call (c : sim_call) : bool :=
  match c with SimOpenValve _ | SimCloseValve => true | _ => false end.

Definition is_open_call (c : sim_call) : bool :=
  match c with SimOpenValve _ => true | _ => false end.

Definition is_enable_call (c : call) : bool :=
  match c with EnableFridge _ => true | _ => false end.

Definition is_stop_call (c : call) : bool :=
  match c with StopCall => true | _ => false end.

(** The object after a traceback of [e] has been printed. *)
Definition printed (e : exn) (fc : FlowController) : FlowController :=
  mkFlowController (QUIT fc) (_lock fc) (total_ticks fc) (last_fridge_time fc)
    (status fc) (devpipe_out fc) (log fc) (stderr fc ++ [e]).

(** The object after [stop] has returned. *)
Definition stopped (fc : FlowController) : FlowController :=
  mkFlowController true false (total_ticks fc) (last_fridge_time fc)
    (status fc) (devpipe_out fc ++ [CMD_STATUS]) (log fc) (stderr fc).

(** The sum of the tick fields of a list of packets. *)
Definition sum_ticks (ps : list StatusPacket) : Z :=
  fold_right Z.add 0 (map ticks ps).

(** The time of the last [EnableFridge] among [cs], or [t0] when there is
    none. *)
Definition last_enable_time (cs : list call) (t0 : Q) : Q :=
  fold_left
    (fun t c => match c with EnableFridge now => now | _ => t end) cs t0.

(** ** Vocabulary of the binary64 arithmetic

    Every number the simulator computes is an integer multiple of
    [2 ^ - scale]; the properties of its arithmetic are stated on the
    integer [SV x = x * 2 ^ scale]. *)

Definition scale : Z := 1200.

(** The scaled value of a float; 0 for infinities and NaN. *)
Definition SV (x : Float.float) : Z :=
  match x with
  | S754_finite s m e => (if s then -1 else 1) * (Z.pos m * 2 ^ (e + scale))
  | _ => 0
  end.

(** [V / 2 ^ k] rounded to the nearest integer, ties to even. *)
Definition rne (V k : Z) : Z :=
  let q := V / 2 ^ k in
  match V mod 2 ^ k ?= 2 ^ (k - 1) with
  | Lt => q
  | Eq => if Z.even q then q else q + 1
  | Gt => q + 1
  end.

(** The exponent of the unit in the last place of the binary64 numbers in
    the binade of the scaled value [V]. *)
Definition ulp_exp (V : Z) : Z := Z.max (Z.log2 V + 1 - scale - 53) (-1074).

(** The scaled value [V] rounded to binary64. *)
Definition Rnd (V : Z) : Z :=
  rne V (ulp_exp V + scale) * 2 ^ (ulp_exp V + scale).

(** The reading of the simulator for the scaled difference [V] of the clock
    and the opening time: subtract, multiply by 50, truncate, each operation
    rounded to binary64. *)
Definition ticksZ (V : Z) : Z :=
  if 0 <=? V then Rnd (50 * Rnd V) / 2 ^ scale else 0.

(** A zero, or a finite number of sign [s] in the exponent range. *)
Definition signed (s : bool) (r : Float.float) : Prop :=
  (exists s0, r = S754_zero s0)
  \/ exists m e, r = S754_finite s m e /\ -1074 <= e <= 971.

(** * Properties *)

(** ** Strings *)

Section StringFacts.

Lemma length_append (s t : string) :
  String.length (s ++ t) = (String.length s + String.length t)%nat.
Proof. induction s as [|c s IH]; simpl; [reflexivity | now rewrite IH]. Qed.

Lemma substring_0_length (s t : string) :
  substring 0 (String.length s) (s ++ t) = s.
Proof.
  induction s as [|c s IH]; simpl.
  - now destruct t.
  - now rewrite IH.
Qed.

Lemma substring_skip (s t : string) (m : nat) :
  substring (String.length s) m (s ++ t) = substring 0 m t.
Proof. induction s as [|c s IH]; simpl; [reflexivity | exact IH]. Qed.

Lemma substring_0_all (t : string) : substring 0 (String.length t) t = t.
Proof. induction t as [|c t IH]; simpl; [reflexivity | now rewrite IH]. Qed.

Lemma endswith_append (s t : string) : Py.endswith (s ++ t) t = true.
Proof.
  unfold Py.endswith. rewrite length_append.
  replace (String.length s + String.length t - String.length t)%nat
    with (String.length s) by lia.
  rewrite substring_skip, substring_0_all, String.eqb_refl.
  rewrite andb_true_r. apply Nat.leb_le. lia.
Qed.

Lemma slice_frame (payload : string) : Py.slice 2 2 (frame payload) = payload.
Proof.
  unfold Py.slice, frame. simpl String.length. rewrite length_append.
  simpl.
  replace (String.length payload + 2 - 0 - 2)%nat
    with (String.length payload) by lia.
  apply substring_0_length.
Qed.

Lemma frame_not_empty (payload : string) : String.eqb (frame payload) "" = false.
Proof. reflexivity. Qed.

Lemma frame_startswith (payload : string) :
  Py.startswith (frame payload) "M:" = true.
Proof.
  unfold Py.startswith, frame. simpl.
  now destruct (payload ++ CRLF)%string.
Qed.

Lemma frame_endswith (payload : string) :
  Py.endswith (frame payload) CRLF = true.
Proof.
  unfold frame. change ("M:" ++ payload ++ CRLF)%string
    with (String "M" (String ":" (payload ++ CRLF))).
  change (String "M" (String ":" (payload ++ CRLF)))
    with (("M:" ++ payload) ++ CRLF)%string.
  apply endswith_append.
Qed.

Lemma ords_length (s : string) : List.length (Py.ords s) = String.length s.
Proof.
  unfold Py.ords. rewrite length_map.
  induction s as [|c s IH]; simpl; [reflexivity | now rewrite IH].
Qed.

Lemma ord_range (c : ascii) : 0 <= Py.ord c < 256.
Proof.
  unfold Py.ord. pose proof (N_ascii_bounded c) as H. lia.
Qed.

Lemma ords_range (s : string) (i : nat) (v : Z) :
  nth_error (Py.ords s) i = Some v -> 0 <= v < 256.
Proof.
  unfold Py.ords. intros H. apply nth_error_In in H.
  apply in_map_iff in H. destruct H as [c [<- _]]. apply ord_range.
Qed.

End StringFacts.

(** ** Decoding *)

Section Decoding.

Lemma StatusPacket_init_short (pkt : list Z) :
  (List.length pkt < 7)%nat -> StatusPacket_init pkt = Raise IndexError.
Proof.
  intros H.
  do 7 (destruct pkt as [|? pkt]; [reflexivity |]).
  simpl in H. lia.
Qed.

Lemma StatusPacket_init_long (pkt : list Z) :
  (7 <= List.length pkt)%nat ->
  exists b0 b1 b2 b3 b4 b5 b6 rest,
    pkt = b0 :: b1 :: b2 :: b3 :: b4 :: b5 :: b6 :: rest /\
    StatusPacket_init pkt =
      Return (mkStatusPacket (_ConvertTemp b5 b6) (b3 * 256 + b4) b1 b2).
Proof.
  intros H.
  do 7 (destruct pkt as [|? pkt]; [simpl in H; lia |]).
  repeat eexists.
Qed.

Lemma StatusPacket_init_inv (pkt : list Z) (p : StatusPacket) :
  StatusPacket_init pkt = Return p ->
  exists b0 b1 b2 b3 b4 b5 b6 rest,
    pkt = b0 :: b1 :: b2 :: b3 :: b4 :: b5 :: b6 :: rest /\
    p = mkStatusPacket (_ConvertTemp b5 b6) (b3 * 256 + b4) b1 b2.
Proof.
  intros H.
  destruct (Nat.lt_ge_cases (List.length pkt) 7) as [Hs | Hl].
  - rewrite (StatusPacket_init_short _ Hs) in H. discriminate.
  - destruct (StatusPacket_init_long _ Hl)
      as (b0 & b1 & b2 & b3 & b4 & b5 & b6 & rest & Hp & Hi).
    rewrite Hi in H. injection H as <-.
    now exists b0, b1, b2, b3, b4, b5, b6, rest.
Qed.

Lemma StatusPacket_init_never_blocks (pkt : list Z) :
  StatusPacket_init pkt <> Blocks.
Proof.
  destruct (Nat.lt_ge_cases (List.length pkt) 7) as [Hs | Hl].
  - now rewrite (StatusPacket_init_short _ Hs).
  - destruct (StatusPacket_init_long _ Hl)
      as (b0 & b1 & b2 & b3 & b4 & b5 & b6 & rest & Hp & Hi).
    now rewrite Hi.
Qed.

Lemma StatusPacket_init_raises (pkt : list Z) (e : exn) :
  StatusPacket_init pkt = Raise e -> e = IndexError /\ (List.length pkt < 7)%nat.
Proof.
  intros H.
  destruct (Nat.lt_ge_cases (List.length pkt) 7) as [Hs | Hl].
  - rewrite (StatusPacket_init_short _ Hs) in H. injection H as <-. now split.
  - destruct (StatusPacket_init_long _ Hl)
      as (b0 & b1 & b2 & b3 & b4 & b5 & b6 & rest & Hp & Hi).
    rewrite Hi in H. discriminate.
Qed.

End Decoding.

(** ** The receive path *)

Ltac unfold_method :=
  unfold bind, ret, lift, raise, sys_exit, logger, set_status,
    set_total_ticks, set_last_fridge_time, set_QUIT, devpipe_write,
    print_exc, release, acquire, set_lock in *.

Section Receive.

(** The four branches of [recvPacket]. *)
Lemma recvPacket_eof (fc : FlowController) :
  recvPacket "" fc =
    (logged ERROR "ERROR: Flow device went away; exiting!" fc,
     Raise (SystemExit 1)).
Proof. reflexivity. Qed.

Lemma recvPacket_no_start (line : string) (fc : FlowController) :
  line <> "" -> Py.startswith line "M:" = false ->
  recvPacket line fc =
    (logged INFO
       (if Py.startswith line "K"
        then ("Found board: " ++ Py.slice 0 2 line)%string
        else "no start of packet; ignoring!") fc,
     Return None).
Proof.
  intros Hne Hm. unfold recvPacket.
  apply String.eqb_neq in Hne. rewrite Hne, Hm. simpl negb. cbv iota.
  now destruct (Py.startswith line "K").
Qed.

Lemma recvPacket_bad_trailer (line : string) (fc : FlowController) :
  Py.startswith line "M:" = true -> Py.endswith line CRLF = false ->
  recvPacket line fc = (logged INFO "bad trailer; ignoring!" fc, Return None).
Proof.
  intros Hm He. unfold recvPacket.
  destruct line as [|c line]; [discriminate Hm |].
  rewrite Hm, He. reflexivity.
Qed.

Lemma recvPacket_decode (line : string) (fc : FlowController) :
  Py.startswith line "M:" = true -> Py.endswith line CRLF = true ->
  recvPacket line fc =
    match StatusPacket_init (Py.ords (Py.slice 2 2 line)) with
    | Return p => (accepted p fc, Return (Some p))
    | Raise e => (fc, Raise e)
    | Blocks => (fc, Blocks)
    end.
Proof.
  intros Hm He. unfold recvPacket.
  destruct line as [|c line]; [discriminate Hm |].
  rewrite Hm, He. simpl negb. cbv iota.
  unfold_method.
  now destruct (StatusPacket_init _).
Qed.

Lemma recvPacket_frame (payload : string) (fc : FlowController) :
  recvPacket (frame payload) fc =
    match StatusPacket_init (Py.ords payload) with
    | Return p => (accepted p fc, Return (Some p))
    | Raise e => (fc, Raise e)
    | Blocks => (fc, Blocks)
    end.
Proof.
  rewrite recvPacket_decode
    by (apply frame_startswith || apply frame_endswith).
  now rewrite slice_frame.
Qed.

Lemma recvPacket_cases (line : string) (fc : FlowController) :
  recv_case line fc (recvPacket line fc).
Proof.
  destruct (String.eqb_spec line "") as [-> | Hne].
  - rewrite recvPacket_eof. now constructor.
  - destruct (Py.startswith line "M:") eqn:Hm.
    + destruct (Py.endswith line CRLF) eqn:He.
      * rewrite recvPacket_decode by assumption.
        destruct (StatusPacket_init _) as [p | e |] eqn:Hi.
        -- now apply RecvAccepted.
        -- apply StatusPacket_init_raises in Hi. destruct Hi as [-> Hlen].
           rewrite ords_length in Hlen. now apply RecvShort.
        -- now apply StatusPacket_init_never_blocks in Hi.
      * rewrite recvPacket_bad_trailer by assumption.
        apply RecvDropped; auto.
    + rewrite recvPacket_no_start by assumption.
      apply RecvDropped; auto.
Qed.

End Receive.

(** ** The shape of a frame that passes the boundary checks *)

Section FrameShape.

Lemma substring_split (s : string) : forall k : nat,
  (k <= String.length s)%nat ->
  s = (substring 0 k s ++ substring k (String.length s - k) s)%string.
Proof.
  induction s as [|c s IH]; intros k Hk.
  - simpl in Hk. now replace k with 0%nat by lia.
  - destruct k as [|k].
    + simpl. now rewrite substring_0_all.
    + simpl in Hk. simpl. f_equal. apply IH. lia.
Qed.

Lemma endswith_inv (s t : string) :
  Py.endswith s t = true ->
  s = (substring 0 (String.length s - String.length t) s ++ t)%string.
Proof.
  unfold Py.endswith. intros H. apply andb_true_iff in H.
  destruct H as [Hlen Heq]. apply Nat.leb_le in Hlen.
  apply String.eqb_eq in Heq.
  rewrite (substring_split s (String.length s - String.length t)) at 1 by lia.
  replace (String.length s - (String.length s - String.length t))%nat
    with (String.length t) by lia.
  now rewrite Heq.
Qed.

Lemma startswith_M_colon (line : string) :
  Py.startswith line "M:" = true ->
  exists rest, line = String "M" (String ":" rest).
Proof.
  unfold Py.startswith. intros H. apply prefix_correct in H.
  destruct line as [|a [|b rest]]; simpl in H; try discriminate H.
  injection H as -> ->.
    now exists rest.
Qed.

Lemma frame_shape (line : string) :
  Py.startswith line "M:" = true -> Py.endswith line CRLF = true ->
  line = frame (Py.slice 2 2 line).
Proof.
  intros Hm He.
  destruct (startswith_M_colon _ Hm) as [rest ->].
  destruct rest as [|c [|d rest]];
    [cbn in He; discriminate He | cbn in He; discriminate He |].
  apply endswith_inv in He.
  unfold frame, Py.slice.
  clear Hm. cbn in He |- *.
  now rewrite Nat.sub_0_r.
Qed.

End FrameShape.

(** ** Frame validation and decoding *)

(** How [recvPacket] treats a well-bounded frame, by the length of what lies
    between ["M:"] and CR LF: seven bytes or more are decoded, fewer raise. *)
Lemma recvPacket_by_length (payload : string) (fc : FlowController) :
  ((7 <= String.length payload)%nat ->
   exists p, recvPacket (frame payload) fc = (accepted p fc, Return (Some p)))
  /\ ((String.length payload < 7)%nat ->
      recvPacket (frame payload) fc = (fc, Raise IndexError)).
Proof.
  rewrite recvPacket_frame. split; intros H.
  - rewrite <- ords_length in H.
    destruct (StatusPacket_init_long _ H)
      as (b0 & b1 & b2 & b3 & b4 & b5 & b6 & rest & _ & ->).
    eexists. reflexivity.
  - rewrite <- ords_length in H.
    now rewrite (StatusPacket_init_short _ H).
Qed.

(** C1. The docstring of [FlowController] promises that packets failing the
    size check are discarded; [recvPacket] has no size check.  A frame whose
    payload has seven bytes, not the five of a status report, is accepted: the
    held status is replaced and [total_ticks] grows by 517.  A frame whose
    payload has three bytes is not dropped either: [IndexError] is raised. *)
Theorem recvPacket_wrong_length_not_rejected :
  String.length (Py.slice 2 2 (frame report7)) = 7%nat
  /\ (let p := mkStatusPacket Float.one 517 1 0 in
      recvPacket (frame report7) FlowController_init
        = (accepted p FlowController_init, Return (Some p))
      /\ total_ticks (accepted p FlowController_init) = 517
      /\ total_ticks FlowController_init = 0
      /\ status (accepted p FlowController_init) = Some p
      /\ status FlowController_init = None)
  /\ String.length (Py.slice 2 2 (frame report3)) = 3%nat
  /\ recvPacket (frame report3) FlowController_init
       = (FlowController_init, Raise IndexError).
Proof.
  split; [reflexivity |]. split.
  - repeat split.
  - split; reflexivity.
Qed.

(** C2. Decoding a frame of the documented layout, ["M:"], five payload
    bytes, CR LF, does not complete: [StatusPacket.__init__] reads [pkt[5]]
    first, which a five-byte payload does not have, so [IndexError] is raised
    and the controller is left as it was. *)
Theorem recvPacket_nine_byte_frame_raises
  (payload : string) (fc : FlowController) :
  String.length payload = 5%nat ->
  String.length (frame payload) = 9%nat
  /\ recvPacket (frame payload) fc = (fc, Raise IndexError).
Proof.
  intros H. split.
  - unfold frame. simpl. rewrite length_append, H. reflexivity.
  - apply recvPacket_by_length. lia.
Qed.

Lemma recvPacket_nine_byte_frame_raises_witness :
  String.length report5 = 5%nat
  /\ String.length (frame report5) = 9%nat
  /\ recvPacket (frame report5) FlowController_init
       = (FlowController_init, Raise IndexError).
Proof.
  split; [reflexivity |].
  apply (recvPacket_nine_byte_frame_raises report5 FlowController_init).
  reflexivity.
Defined.

(** C3. When [recvPacket] accepts a frame, the frame is ["M:"], a payload,
    CR LF, and the packet is read off the payload by position: byte 1 is the
    fridge state, byte 2 the valve state, and the tick count is byte 3 times
    256 plus byte 4. *)
Theorem recvPacket_fields_positional
  (line : string) (fc fc' : FlowController) (p : StatusPacket) :
  recvPacket line fc = (fc', Return (Some p)) ->
  let payload := Py.ords (Py.slice 2 2 line) in
  line = frame (Py.slice 2 2 line)
  /\ nth_error payload 1 = Some (fridge p)
  /\ nth_error payload 2 = Some (valve p)
  /\ exists hi lo,
       nth_error payload 3 = Some hi /\ nth_error payload 4 = Some lo
       /\ ticks p = hi * 256 + lo.
Proof.
  intros H payload.
  destruct (recvPacket_cases line fc) as [| msg | | q Hm He Hi];
    try discriminate H.
  injection H as _ ->.
  split; [now apply frame_shape |].
  apply StatusPacket_init_inv in Hi.
  destruct Hi as (b0 & b1 & b2 & b3 & b4 & b5 & b6 & rest & Hp & ->).
  subst payload. rewrite Hp. simpl.
  repeat split. now exists b3, b4.
Qed.

Lemma recvPacket_fields_positional_witness :
  let p := mkStatusPacket Float.one 517 1 0 in
  let payload := Py.ords (Py.slice 2 2 (frame report7)) in
  recvPacket (frame report7) FlowController_init
    = (accepted p FlowController_init, Return (Some p))
  /\ frame report7 = frame (Py.slice 2 2 (frame report7))
  /\ nth_error payload 1 = Some 1
  /\ nth_error payload 2 = Some 0
  /\ exists hi lo,
       nth_error payload 3 = Some hi /\ nth_error payload 4 = Some lo
       /\ 517 = hi * 256 + lo.
Proof.
  intros p payload. split; [reflexivity |].
  apply (recvPacket_fields_positional (frame report7) FlowController_init
           (accepted p FlowController_init) p).
  reflexivity.
Defined.

(** C6. A line that begins with ['K'] does not begin with ["M:"];
    [recvPacket] logs it as a board banner and returns [None]: nothing is
    raised, no packet is built, and [total_ticks] and the held status are
    what they were. *)
Theorem recvPacket_board_banner (line : string) (fc : FlowController) :
  Py.startswith line "K" = true ->
  Py.startswith line "M:" = false
  /\ recvPacket line fc
       = (logged INFO ("Found board: " ++ Py.slice 0 2 line)%string fc,
          Return None)
  /\ total_ticks (fst (recvPacket line fc)) = total_ticks fc
  /\ status (fst (recvPacket line fc)) = status fc.
Proof.
  intros HK.
  assert (Hne : line <> "") by (intros ->; discriminate HK).
  assert (Hm : Py.startswith line "M:" = false).
  { destruct (Py.startswith line "M:") eqn:Hm; [| reflexivity].
    destruct (startswith_M_colon _ Hm) as [rest ->].
    vm_compute in HK. discriminate HK. }
  split; [exact Hm |].
  rewrite (recvPacket_no_start line fc Hne Hm), HK.
  repeat split.
Qed.

Lemma recvPacket_board_banner_witness :
  recvPacket "Kegboard v1" FlowController_init
    = (logged INFO "Found board: Kegboard " FlowController_init, Return None).
Proof.
  apply (recvPacket_board_banner "Kegboard v1" FlowController_init).
  reflexivity.
Defined.

(** ** Temperature *)

Section Temperature.

Lemma byte_values_spec (z : Z) : 0 <= z <= 255 -> In z byte_values.
Proof.
  intros H. unfold byte_values. apply in_map_iff.
  exists (Z.to_nat z). split; [lia |]. apply in_seq. lia.
Qed.

Lemma temperature_agrees_all :
  forallb (fun ms => forallb (temperature_agrees ms) byte_values) byte_values
  = true.
Proof. vm_compute. reflexivity. Qed.

End Temperature.

(** C4. For all bytes the float [_ConvertTemp] returns denotes exactly the
    number the specification gives (the product with 0.0625 is exact in
    binary64 at these magnitudes); sign byte 0x00 with magnitude byte 0x10
    gives the float 1.0, which denotes 1. *)
Theorem ConvertTemp_spec (sign_byte magnitude_byte : Z) :
  0 <= sign_byte <= 255 -> 0 <= magnitude_byte <= 255 ->
  (exists q,
     Float.to_Q (_ConvertTemp sign_byte magnitude_byte) = Some q
     /\ (q == temperature_spec sign_byte magnitude_byte)%Q)
  /\ _ConvertTemp 0 16 = Float.one
  /\ (exists q, Float.to_Q Float.one = Some q /\ (q == 1)%Q).
Proof.
  intros Hs Hm. split; [| split; [reflexivity | now eexists]].
  pose proof temperature_agrees_all as H.
  rewrite forallb_forall in H.
  specialize (H _ (byte_values_spec _ Hs)).
  rewrite forallb_forall in H.
  specialize (H _ (byte_values_spec _ Hm)).
  unfold temperature_agrees in H.
  destruct (Float.to_Q (_ConvertTemp sign_byte magnitude_byte)) as [q |];
    [| discriminate H].
  exists q. split; [reflexivity |]. now apply Qeq_bool_eq.
Qed.

Lemma ConvertTemp_spec_witness :
  (exists q,
     Float.to_Q (_ConvertTemp 255 255) = Some q
     /\ (q == temperature_spec 255 255)%Q)
  /\ _ConvertTemp 0 16 = Float.one
  /\ (exists q, Float.to_Q Float.one = Some q /\ (q == 1)%Q).
Proof. apply (ConvertTemp_spec 255 255); lia. Defined.

(** ** Tick accumulation *)

Section Ticks.

Lemma accepted_ticks_range (s : string) (p : StatusPacket) :
  StatusPacket_init (Py.ords s) = Return p -> 0 <= ticks p < 65536.
Proof.
  intros H. apply StatusPacket_init_inv in H.
  destruct H as (b0 & b1 & b2 & b3 & b4 & b5 & b6 & rest & Hp & ->).
  assert (H3 : 0 <= b3 < 256) by (apply (ords_range s 3); now rewrite Hp).
  assert (H4 : 0 <= b4 < 256) by (apply (ords_range s 4); now rewrite Hp).
  simpl. lia.
Qed.

Lemma recvPacket_total_ticks_le (line : string) (fc : FlowController) :
  total_ticks fc <= total_ticks (fst (recvPacket line fc)).
Proof.
  destruct (recvPacket_cases line fc) as [| msg | | p Hm He Hi]; simpl;
    try lia.
  apply accepted_ticks_range in Hi. lia.
Qed.

Lemma stop_total_ticks (fc : FlowController) :
  total_ticks (fst (stop fc)) = total_ticks fc.
Proof.
  unfold stop, getStatus. unfold_method. simpl. now destruct (_lock fc).
Qed.

Lemma status_select_total_ticks_le (evs : list event) :
  forall (w : bool) (fc : FlowController),
    total_ticks fc <= total_ticks (fst (status_select w evs fc)).
Proof.
  induction evs as [| ev evs IH]; intros w fc; simpl.
  - destruct (negb w && QUIT fc); simpl; lia.
  - destruct (negb w && QUIT fc); [simpl; lia |].
    destruct ev as [| | line].
    + rewrite <- (stop_total_ticks fc) at 1. apply IH.
    + apply IH.
    + pose proof (recvPacket_total_ticks_le line fc) as Hle.
      destruct (recvPacket line fc) as [fc1 [r | e |]]; simpl in *;
        try lia.
      specialize (IH false fc1). lia.
Qed.

Lemma status_while_total_ticks_le (evs : list event) :
  forall fc, total_ticks fc <= total_ticks (fst (status_while evs fc)).
Proof. intros fc. apply status_select_total_ticks_le. Qed.

Lemma statusLoop_total_ticks_le (evs : list event) (fc : FlowController) :
  total_ticks fc <= total_ticks (fst (statusLoop evs fc)).
Proof.
  unfold statusLoop, try_except. unfold_method.
  pose proof (status_while_total_ticks_le evs
                (logged INFO "status loop starting" fc)) as H.
  unfold logged in H.
  destruct (status_while evs _) as [fc1 [[] | e |]]; simpl in *; exact H.
Qed.

Lemma recvPackets_sum (lines : list string) :
  forall (fc fc' : FlowController) (ps : list StatusPacket),
    recvPackets lines fc = (fc', map (fun p => Return (Some p)) ps) ->
    total_ticks fc' = total_ticks fc + fold_right Z.add 0 (map ticks ps).
Proof.
  induction lines as [| line lines IH]; intros fc fc' ps H; simpl in H.
  - destruct ps; [| discriminate H]. injection H as <-. simpl. lia.
  - destruct (recvPacket_cases line fc) as [| msg | | p Hm He Hi];
      destruct (recvPackets lines _) as [fc2 rs] eqn:E;
      (destruct ps as [| q ps]; [discriminate H |]);
      simpl in H; try discriminate H.
    injection H as -> -> ->.
    apply IH in E. rewrite E. simpl. lia.
Qed.

End Ticks.

(** C5. When every one of a run of frames is accepted, [total_ticks] ends
    at its value before the run plus the sum of the tick fields of the
    packets; and no call of [recvPacket], whatever the line, and no run of
    the status loop, makes [total_ticks] smaller. *)
Theorem total_ticks_accumulates :
  (forall (lines : list string) (fc fc' : FlowController)
          (ps : list StatusPacket),
      recvPackets lines fc = (fc', map (fun p => Return (Some p)) ps) ->
      total_ticks fc' = total_ticks fc + fold_right Z.add 0 (map ticks ps))
  /\ (forall (line : string) (fc : FlowController),
        total_ticks fc <= total_ticks (fst (recvPacket line fc)))
  /\ (forall (evs : list event) (fc : FlowController),
        total_ticks fc <= total_ticks (fst (statusLoop evs fc))).
Proof.
  split; [exact recvPackets_sum |].
  split; [exact recvPacket_total_ticks_le | exact statusLoop_total_ticks_le].
Qed.

(** Two accepted frames, 517 ticks and 3 ticks, from a total of 0. *)
Lemma total_ticks_accumulates_witness :
  let p1 := mkStatusPacket Float.one 517 1 0 in
  let p2 := mkStatusPacket (_ConvertTemp 8 16) 3 0 1 in
  let lines := [frame report7; frame (chars [1; 0; 1; 0; 3; 8; 16]%nat)] in
  recvPackets lines FlowController_init
    = (accepted p2 (accepted p1 FlowController_init),
       map (fun p => Return (Some p)) [p1; p2])
  /\ total_ticks (accepted p2 (accepted p1 FlowController_init))
     = total_ticks FlowController_init + fold_right Z.add 0 (map ticks [p1; p2]).
Proof.
  intros p1 p2 lines. split; [reflexivity |].
  apply (proj1 total_ticks_accumulates lines). reflexivity.
Defined.

(** ** Command dispatch *)

Section Commands.

(** A command leaves a free lock free. *)
Lemma do_call_lock (c : call) (fc : FlowController) :
  _lock fc = false -> _lock (fst (do_call c fc)) = false.
Proof.
  intros H. destruct c as [| | now | | | | | | line]; simpl;
    try (unfold openValve, closeValve, enableFridge, updateTemp,
           disableFridge, getStatus, stop, readTicks;
         unfold_method; simpl; rewrite H; reflexivity).
  destruct (recvPacket_cases line fc); simpl; exact H.
Qed.

Lemma do_calls_lock (cs : list call) :
  forall fc, _lock fc = false -> _lock (fst (do_calls cs fc)) = false.
Proof.
  induction cs as [| c cs IH]; intros fc H; simpl; [exact H |].
  pose proof (do_call_lock c fc H) as H1.
  destruct (do_call c fc) as [fc1 b1]. simpl in H1.
  specialize (IH fc1 H1).
  destruct (do_calls cs fc1) as [fc2 b2]. exact IH.
Qed.

(** Until a packet is accepted the held status is what it was. *)
Lemma do_call_status (c : call) (fc : FlowController) :
  snd (do_call c fc) = false -> status (fst (do_call c fc)) = status fc.
Proof.
  destruct c as [| | now | | | | | | line]; simpl; intros H;
    try (unfold openValve, closeValve, enableFridge, updateTemp,
           disableFridge, getStatus, stop, readTicks;
         unfold_method; simpl; destruct (_lock fc); reflexivity).
  destruct (recvPacket_cases line fc); simpl in *;
    reflexivity || discriminate H.
Qed.

Lemma do_calls_status (cs : list call) :
  forall fc,
    snd (do_calls cs fc) = false -> status (fst (do_calls cs fc)) = status fc.
Proof.
  induction cs as [| c cs IH]; intros fc H; simpl in *; [reflexivity |].
  pose proof (do_call_status c fc) as H1.
  destruct (do_call c fc) as [fc1 b1]. simpl in H1.
  specialize (IH fc1).
  destruct (do_calls cs fc1) as [fc2 b2]. simpl in *.
  apply orb_false_iff in H. destruct H as [-> ->].
  now rewrite IH, H1.
Qed.


End Commands.



(** ** End of stream *)

Section EndOfStream.

Lemma status_while_timeouts (n : nat) (evs : list event) (fc : FlowController) :
  QUIT fc = false ->
  status_while (repeat Timeout n ++ evs) fc = status_while evs fc.
Proof.
  intros H. unfold status_while.
  induction n as [| n IH]; simpl; [reflexivity |].
  now rewrite H.
Qed.

(** No exception leaves the status loop. *)
Lemma run_never_raises (evs : list event) (fc : FlowController) (e : exn) :
  snd (run evs fc) <> Raise e.
Proof.
  unfold run, statusLoop, try_except. unfold_method.
  destruct (status_while evs _) as [fc1 [[] | e1 |]]; simpl; discriminate.
Qed.

End EndOfStream.

(** C8. At end of stream [recvPacket] logs the fault and calls
    [sys.exit(1)], which raises [SystemExit]; but the call is made inside
    the [try] of [statusLoop], whose bare [except] catches it: the loop logs
    a packet read error, prints the traceback and returns.  [run] returns
    normally, so nothing ends the process; the frames after the end of
    stream are not read. *)
Theorem statusLoop_swallows_exit
  (n : nat) (rest : list event) (fc : FlowController) :
  QUIT fc = false ->
  recvPacket "" fc
    = (logged ERROR "ERROR: Flow device went away; exiting!" fc,
       Raise (SystemExit 1))
  /\ run (repeat Timeout n ++ Readable "" :: rest) fc
     = (after_eof fc, Return tt).
Proof.
  intros H. split; [reflexivity |].
  unfold run, statusLoop, try_except. unfold_method.
  rewrite status_while_timeouts by exact H.
  unfold status_while. simpl. rewrite H. simpl. unfold after_eof.
  rewrite <- !app_assoc, H. reflexivity.
Qed.

Lemma statusLoop_swallows_exit_witness :
  run [Timeout; Timeout; Readable ""; Readable (frame report7)]
    FlowController_init
  = (after_eof FlowController_init, Return tt).
Proof.
  apply (statusLoop_swallows_exit 2 [Readable (frame report7)]
           FlowController_init).
  reflexivity.
Defined.

(** ** The fridge status before the first packet *)

(** C9. After [__init__] and any calls among which no [recvPacket] accepts
    a frame, the held status is still [None] and [fridgeStatus] raises
    [AttributeError]. *)
Theorem fridgeStatus_before_first_packet (cs : list call) :
  snd (do_calls cs FlowController_init) = false ->
  status FlowController_init = None
  /\ status (fst (do_calls cs FlowController_init)) = None
  /\ fridgeStatus (fst (do_calls cs FlowController_init))
     = (fst (do_calls cs FlowController_init), Raise AttributeError).
Proof.
  intros H. split; [reflexivity |].
  apply do_calls_status in H.
  change (status FlowController_init) with (@None StatusPacket) in H.
  split; [exact H |].
  unfold fridgeStatus. now rewrite H.
Qed.

(** A banner, a five-byte report and a line with a bad trailer. *)
Lemma fridgeStatus_before_first_packet_witness :
  let cs := [RecvPacket "Kegboard v1"; OpenValve;
             RecvPacket (frame report5); RecvPacket "M:abc"] in
  snd (do_calls cs FlowController_init) = false
  /\ snd (fridgeStatus (fst (do_calls cs FlowController_init)))
     = Raise AttributeError.
Proof.
  intros cs. split; [reflexivity |].
  destruct (fridgeStatus_before_first_packet cs eq_refl) as (_ & _ & H).
  now rewrite H.
Defined.

(** ** Binary64 rounding

    What [SpecFloat]'s subtraction and multiplication do to the time stamps
    of the simulator, on scaled values. *)

Lemma scale_eq : scale = 1200.
Proof. reflexivity. Qed.

Opaque scale.

Section Rne.

Lemma pow2_pos (k : Z) : 0 <= k -> 0 < 2 ^ k.
Proof. intros. apply Z.pow_pos_nonneg; lia. Qed.

Lemma pow2_half (k : Z) : 1 <= k -> 2 ^ k = 2 * 2 ^ (k - 1).
Proof.
  intros H. replace k with (Z.succ (k - 1)) at 1 by lia.
  rewrite Z.pow_succ_r by lia. reflexivity.
Qed.

Lemma rne_bounds (V k : Z) : V / 2 ^ k <= rne V k <= V / 2 ^ k + 1.
Proof.
  unfold rne. destruct (_ ?= _); [destruct (Z.even _) | |]; lia.
Qed.

Lemma rne_err (V k : Z) :
  1 <= k -> - 2 ^ (k - 1) <= rne V k * 2 ^ k - V <= 2 ^ (k - 1).
Proof.
  intros Hk. pose proof (pow2_pos k ltac:(lia)) as Hp.
  pose proof (pow2_half k Hk) as Hh.
  pose proof (Z.div_mod V (2 ^ k) ltac:(lia)) as Hdm.
  pose proof (Z.mod_pos_bound V (2 ^ k) Hp) as Hm.
  unfold rne.
  set (q := V / 2 ^ k) in *. set (r := V mod 2 ^ k) in *.
  set (p := 2 ^ k) in *. set (h := 2 ^ (k - 1)) in *.
  clearbody q r p h.
  destruct (r ?= h) eqn:C.
  - apply Z.compare_eq in C. destruct (Z.even q); nia.
  - rewrite Z.compare_lt_iff in C. nia.
  - rewrite Z.compare_gt_iff in C. nia.
Qed.

Lemma rne_mono (V1 V2 k : Z) :
  1 <= k -> V1 <= V2 -> rne V1 k <= rne V2 k.
Proof.
  intros Hk HV. pose proof (pow2_pos k ltac:(lia)) as Hp.
  pose proof (pow2_half k Hk) as Hh.
  pose proof (Z.div_le_mono V1 V2 (2 ^ k) Hp HV) as Hq.
  destruct (Z.eq_dec (V1 / 2 ^ k) (V2 / 2 ^ k)) as [E | NE].
  - pose proof (Z.div_mod V1 (2 ^ k) ltac:(lia)) as Hd1.
    pose proof (Z.div_mod V2 (2 ^ k) ltac:(lia)) as Hd2.
    assert (Hr : V1 mod 2 ^ k <= V2 mod 2 ^ k) by nia.
    unfold rne. rewrite E.
    destruct (V1 mod 2 ^ k ?= 2 ^ (k - 1)) eqn:C1;
      destruct (V2 mod 2 ^ k ?= 2 ^ (k - 1)) eqn:C2;
      try apply Z.compare_eq in C1; try apply Z.compare_eq in C2;
      try rewrite Z.compare_lt_iff in C1; try rewrite Z.compare_lt_iff in C2;
      try rewrite Z.compare_gt_iff in C1; try rewrite Z.compare_gt_iff in C2;
      destruct (Z.even (V2 / 2 ^ k)); lia.
  - pose proof (rne_bounds V1 k). pose proof (rne_bounds V2 k). lia.
Qed.

Lemma rne_exact (n k : Z) : 1 <= k -> rne (n * 2 ^ k) k = n.
Proof.
  intros Hk. pose proof (pow2_pos k ltac:(lia)) as Hp.
  pose proof (pow2_pos (k - 1) ltac:(lia)) as Hp1.
  unfold rne. rewrite Z.mod_mul, Z.div_mul by lia.
  destruct (0 ?= 2 ^ (k - 1)) eqn:C; [| reflexivity |].
  - apply Z.compare_eq in C. lia.
  - rewrite Z.compare_gt_iff in C. lia.
Qed.

Lemma rne_scale (V k j : Z) :
  1 <= k -> 0 <= j -> rne (V * 2 ^ j) (k + j) = rne V k.
Proof.
  intros Hk Hj.
  pose proof (pow2_pos k ltac:(lia)) as Hp.
  pose proof (pow2_pos j Hj) as Hpj.
  pose proof (pow2_pos (k - 1) ltac:(lia)) as Hp1.
  unfold rne.
  rewrite (Z.pow_add_r 2 k j) by lia.
  replace (k + j - 1) with ((k - 1) + j) by lia.
  rewrite (Z.pow_add_r 2 (k - 1) j) by lia.
  rewrite Z.div_mul_cancel_r by lia.
  rewrite Z.mul_mod_distr_r by lia.
  rewrite <- Zmult_compare_compat_r by lia. reflexivity.
Qed.

Lemma rne_nonneg (V k : Z) : 0 <= k -> 0 <= V -> 0 <= rne V k.
Proof.
  intros Hk HV. pose proof (rne_bounds V k).
  pose proof (Z.div_pos V (2 ^ k) HV (pow2_pos k Hk)). lia.
Qed.

End Rne.

Section Shr.

Lemma iter_pos_nat {A : Type} (f : A -> A) (p : positive) : forall x : A,
  iter_pos f p x = Nat.iter (Pos.to_nat p) f x.
Proof.
  induction p as [p IH | p IH |]; intros x; cbn [iter_pos].
  - rewrite !IH, Pos2Nat.inj_xI.
    replace (S (2 * Pos.to_nat p))%nat
      with (Pos.to_nat p + (Pos.to_nat p + 1))%nat by lia.
    rewrite !Nat.iter_add. reflexivity.
  - rewrite !IH, Pos2Nat.inj_xO.
    replace (2 * Pos.to_nat p)%nat
      with (Pos.to_nat p + Pos.to_nat p)%nat by lia.
    rewrite Nat.iter_add. reflexivity.
  - reflexivity.
Qed.

Lemma shr_1_spec (m : Z) (r s : bool) :
  0 <= m ->
  shr_1 (Build_shr_record m r s) = Build_shr_record (m / 2) (Z.odd m) (r || s).
Proof.
  intros H. rewrite <- Z.div2_div.
  destruct m as [| [p | p |] |]; try reflexivity. lia.
Qed.

Lemma mod_pow2_succ (P n : Z) :
  0 <= n ->
  P mod 2 ^ (n + 1) = P mod 2 ^ n + 2 ^ n * (if Z.odd (P / 2 ^ n) then 1 else 0).
Proof.
  intros Hn. rewrite Z.pow_add_r by lia. change (2 ^ 1) with 2.
  rewrite Z.rem_mul_r by (pose proof (pow2_pos n Hn); lia).
  now rewrite Zmod_odd.
Qed.

Lemma shr_iter (P : Z) (n : nat) :
  0 <= P ->
  Nat.iter n shr_1 (Build_shr_record P false false)
  = match n with
    | O => Build_shr_record P false false
    | S n' =>
        Build_shr_record (P / 2 ^ Z.of_nat n)
          (Z.odd (P / 2 ^ Z.of_nat n'))
          (negb (P mod 2 ^ Z.of_nat n' =? 0))
    end.
Proof.
  intros HP. induction n as [| n IH]; [reflexivity |].
  rewrite Nat.iter_succ, IH. clear IH.
  destruct n as [| n'].
  - rewrite shr_1_spec by exact HP.
    change (Z.of_nat 1) with 1. change (Z.of_nat 0) with 0.
    rewrite Z.pow_1_r, Z.pow_0_r, Z.div_1_r, Z.mod_1_r. reflexivity.
  - set (a := Z.of_nat n').
    assert (Ha : 0 <= a) by (unfold a; lia).
    replace (Z.of_nat (S n')) with (a + 1) by (unfold a; lia).
    replace (Z.of_nat (S (S n'))) with (a + 1 + 1) by (unfold a; lia).
    pose proof (pow2_pos a Ha) as Hpa.
    pose proof (pow2_pos (a + 1) ltac:(lia)) as Hpa1.
    rewrite shr_1_spec by (apply Z.div_pos; lia).
    f_equal.
    + rewrite (Z.pow_add_r 2 (a + 1) 1) by lia. change (2 ^ 1) with 2.
      rewrite Z.div_div by lia. reflexivity.
    + rewrite (mod_pow2_succ P a Ha).
      pose proof (Z.mod_pos_bound P (2 ^ a) Hpa) as Hm.
      destruct (Z.odd (P / 2 ^ a)); simpl.
      * symmetry. apply negb_true_iff. apply Z.eqb_neq. lia.
      * now rewrite Z.mul_0_r, Z.add_0_r.
Qed.

Lemma shr_round (P : Z) (kp : positive) :
  0 <= P ->
  let mrs := iter_pos shr_1 kp (Build_shr_record P false false) in
  shr_m mrs = P / 2 ^ Z.pos kp
  /\ round_nearest_even (shr_m mrs) (loc_of_shr_record mrs) = rne P (Z.pos kp).
Proof.
  intros HP mrs. subst mrs.
  rewrite iter_pos_nat, shr_iter by exact HP.
  destruct (Pos.to_nat kp) as [| n'] eqn:En; [lia |].
  assert (Hk : Z.of_nat (S n') = Z.pos kp) by lia.
  rewrite Hk. split; [reflexivity |].
  set (a := Z.of_nat n').
  assert (Ha : 0 <= a) by (unfold a; lia).
  assert (Hka : Z.pos kp = a + 1) by (unfold a; lia).
  pose proof (pow2_pos a Ha) as Hpa.
  pose proof (Z.mod_pos_bound P (2 ^ a) Hpa) as Hm.
  unfold rne. rewrite Hka. replace (a + 1 - 1) with a by lia.
  rewrite (mod_pow2_succ P a Ha).
  cbn [shr_m loc_of_shr_record].
  destruct (Z.odd (P / 2 ^ a)).
  - destruct (P mod 2 ^ a =? 0) eqn:Ez; cbn [negb round_nearest_even].
    + apply Z.eqb_eq in Ez. rewrite Ez.
      replace (0 + 2 ^ a * 1 ?= 2 ^ a) with Eq; [reflexivity |].
      symmetry. apply Z.compare_eq_iff. lia.
    + apply Z.eqb_neq in Ez.
      replace (P mod 2 ^ a + 2 ^ a * 1 ?= 2 ^ a) with Gt; [reflexivity |].
      symmetry. apply Z.compare_gt_iff. lia.
  - replace (P mod 2 ^ a + 2 ^ a * 0 ?= 2 ^ a) with Lt.
    + destruct (P mod 2 ^ a =? 0); reflexivity.
    + symmetry. apply Z.compare_lt_iff. lia.
Qed.

End Shr.

Section Round.

Lemma digits2_size (p : positive) : digits2_pos p = Pos.size p.
Proof. induction p; simpl; congruence. Qed.

Lemma log2_size (p : positive) : Z.log2 (Z.pos p) = Z.pos (Pos.size p) - 1.
Proof. destruct p; cbn [Z.log2 Pos.size]; rewrite ?Pos2Z.inj_succ; lia. Qed.

Lemma log2_scaled (p : positive) (j : Z) :
  0 <= j -> Z.log2 (Z.pos p * 2 ^ j) = Z.pos (Pos.size p) - 1 + j.
Proof.
  intros Hj. rewrite <- log2_size.
  rewrite <- Z.shiftl_mul_pow2 by lia.
  rewrite Z.log2_shiftl by lia. reflexivity.
Qed.

Lemma size_bounds (p : positive) :
  2 ^ (Z.pos (Pos.size p) - 1) <= Z.pos p < 2 ^ Z.pos (Pos.size p).
Proof.
  pose proof (Z.log2_spec (Z.pos p) ltac:(lia)) as H.
  rewrite log2_size in H.
  replace (Z.succ (Z.pos (Pos.size p) - 1)) with (Z.pos (Pos.size p)) in H by lia.
  exact H.
Qed.

Lemma fexp_eq (e : Z) : fexp 53 1024 e = Z.max (e - 53) (-1074).
Proof. reflexivity. Qed.


Lemma shr_fexp_exact (m e : Z) :
  shr_fexp 53 1024 m e loc_Exact
  = match fexp 53 1024 (Zdigits2 m + e) - e with
    | Z.pos kp =>
        (iter_pos shr_1 kp (Build_shr_record m false false),
         fexp 53 1024 (Zdigits2 m + e))
    | _ => (Build_shr_record m false false, e)
    end.
Proof.
  unfold shr_fexp, shr. cbn [shr_record_of_loc].
  destruct (fexp 53 1024 (Zdigits2 m + e) - e) eqn:Hk; try reflexivity.
  f_equal. lia.
Qed.

Lemma ulp_exp_scaled (P : positive) (E : Z) :
  - scale <= E ->
  ulp_exp (Z.pos P * 2 ^ (E + scale))
  = Z.max (Z.pos (Pos.size P) + E - 53) (-1074).
Proof.
  intros HE. unfold ulp_exp. rewrite log2_scaled by lia. f_equal. lia.
Qed.

Lemma pow2_le (a b : Z) : 0 <= a <= b -> 2 ^ a <= 2 ^ b.
Proof. intros H. apply Z.pow_le_mono_r; lia. Qed.

Lemma pow2_lt_inv (a b : Z) : 0 <= b -> 2 ^ a < 2 ^ b -> a < b.
Proof. intros Hb H. apply (Z.pow_lt_mono_r_iff 2); lia. Qed.

Lemma pow2_split (a b : Z) : 0 <= a -> 0 <= b -> 2 ^ (a + b) = 2 ^ a * 2 ^ b.
Proof. intros. apply Z.pow_add_r; lia. Qed.

Lemma binary_round_aux_spec (sx : bool) (P : positive) (E : Z) :
  - scale <= E <= 971 ->
  Z.pos (Pos.size P) + E <= 1023 ->
  let r := binary_round_aux 53 1024 sx (Z.pos P) E loc_Exact in
  (r = S754_zero sx
   \/ exists m e, r = S754_finite sx m e /\ Z.min E (-1074) <= e <= 971)
  /\ SV r = (if sx then -1 else 1) * Rnd (Z.pos P * 2 ^ (E + scale)).
Proof.
  intros HE Hmu r. subst r.
  pose proof scale_eq as HS.
  unfold Rnd. rewrite ulp_exp_scaled by lia.
  set (d := Z.pos (Pos.size P)) in *.
  set (u := Z.max (d + E - 53) (-1074)).
  assert (Hu : -1074 <= u <= 970) by (unfold u; lia).
  pose proof (size_bounds P) as HP. fold d in HP.
  unfold binary_round_aux.
  rewrite shr_fexp_exact. cbn [Zdigits2]. rewrite digits2_size, fexp_eq.
  fold d. fold u.
  destruct (u - E) as [| kp | kp] eqn:Hk.
  - (* no shift *)
    cbn [shr_m loc_of_shr_record round_nearest_even].
    rewrite shr_fexp_exact. cbn [Zdigits2]. rewrite digits2_size, fexp_eq.
    fold d. fold u. rewrite Hk. cbn [shr_m].
    replace (E <=? 1024 - 53) with true by (symmetry; apply Z.leb_le; lia).
    split; [right; exists P, E; split; [reflexivity | lia] |].
    cbn [SV]. f_equal.
    replace (u + scale) with (E + scale) by lia.
    rewrite rne_exact by lia. reflexivity.
  - (* shift right by kp *)
    assert (HuE : u = E + Z.pos kp) by lia.
    destruct (shr_round (Z.pos P) kp ltac:(lia)) as [Hq Hr].
    cbv zeta in Hq, Hr.
    set (mrs := iter_pos shr_1 kp (Build_shr_record (Z.pos P) false false)) in *.
    rewrite Hr.
    assert (Hscale : rne (Z.pos P * 2 ^ (E + scale)) (u + scale)
                     = rne (Z.pos P) (Z.pos kp)).
    { replace (u + scale) with (Z.pos kp + (E + scale)) by lia.
      apply rne_scale; lia. }
    rewrite Hscale.
    set (m1 := rne (Z.pos P) (Z.pos kp)) in *.
    assert (Hm1 : 0 <= m1 <= 2 ^ 53).
    { pose proof (rne_bounds (Z.pos P) (Z.pos kp)) as Hb. fold m1 in Hb.
      pose proof (pow2_pos (Z.pos kp) ltac:(lia)) as Hpk.
      assert (Z.pos P / 2 ^ Z.pos kp < 2 ^ 53).
      { apply Z.div_lt_upper_bound; [lia |].
        rewrite <- pow2_split by lia.
        apply Z.lt_le_trans with (2 ^ d); [lia |].
        apply pow2_le. unfold d in *. lia. }
      pose proof (Z.div_pos (Z.pos P) (2 ^ Z.pos kp) ltac:(lia) Hpk). lia. }
    rewrite shr_fexp_exact, fexp_eq.
    destruct m1 as [| p1 | p1] eqn:Em1; [| | lia].
    + (* rounds to zero *)
      cbn [Zdigits2].
      destruct (Z.max (0 + u - 53) (-1074) - u) eqn:Hk2; try lia;
        cbn [shr_m]; (split; [now left | cbn [SV]; lia]).
    + cbn [Zdigits2]. rewrite digits2_size.
      pose proof (size_bounds p1) as Hp1.
      set (d1 := Z.pos (Pos.size p1)) in *.
      destruct (Z.eq_dec (Z.pos p1) (2 ^ 53)) as [Hcarry | Hnc].
      * (* the mantissa carries into the next binade *)
        assert (Hp1' : p1 = 9007199254740992%positive).
        { apply Pos2Z.inj. rewrite Hcarry. reflexivity. }
        subst p1. subst d1. cbn [Pos.size Pos.succ].
        replace (Z.max (54 + u - 53) (-1074) - u) with 1 by lia.
        replace (Z.max (54 + u - 53) (-1074)) with (u + 1) by lia.
        cbn [iter_pos shr_1 shr_m].
        replace (u + 1 <=? 1024 - 53) with true
          by (symmetry; apply Z.leb_le; lia).
        split; [right; do 2 eexists; split; [reflexivity | lia] |].
        cbn [SV]. f_equal.
        replace (u + 1 + scale) with (1 + (u + scale)) by lia.
        rewrite pow2_split by lia. change (2 ^ 1) with 2. lia.
      * assert (Hd1 : d1 <= 53).
        { assert (2 ^ (d1 - 1) < 2 ^ 53) by lia.
          apply pow2_lt_inv in H; lia. }
        destruct (Z.max (d1 + u - 53) (-1074) - u) eqn:Hk2; try lia;
          cbn [shr_m];
          (replace (u <=? 1024 - 53) with true
             by (symmetry; apply Z.leb_le; lia));
          (split; [right; exists p1, u; split; [reflexivity | lia] |
                   reflexivity]).
  - (* negative shift: no shift *)
    cbn [shr_m loc_of_shr_record round_nearest_even].
    rewrite shr_fexp_exact. cbn [Zdigits2]. rewrite digits2_size, fexp_eq.
    fold d. fold u. rewrite Hk. cbn [shr_m].
    replace (E <=? 1024 - 53) with true by (symmetry; apply Z.leb_le; lia).
    split; [right; exists P, E; split; [reflexivity | lia] |].
    cbn [SV]. f_equal.
    assert (Hsplit : Z.pos P * 2 ^ (E + scale)
                     = (Z.pos P * 2 ^ (E - u)) * 2 ^ (u + scale)).
    { rewrite <- Z.mul_assoc, <- pow2_split by lia. f_equal. f_equal. lia. }
    assert (Hr : rne (Z.pos P * 2 ^ (E + scale)) (u + scale)
                 = Z.pos P * 2 ^ (E - u)).
    { rewrite Hsplit. apply rne_exact. lia. }
    rewrite Hr. exact Hsplit.
Qed.

End Round.

Section RndFacts.

Lemma ulp_exp_ge (V : Z) : 1 <= ulp_exp V + scale.
Proof. pose proof scale_eq. unfold ulp_exp. lia. Qed.

Lemma ulp_exp_mono (V1 V2 : Z) : V1 <= V2 -> ulp_exp V1 <= ulp_exp V2.
Proof.
  intros H. unfold ulp_exp. pose proof (Z.log2_le_mono V1 V2 H). lia.
Qed.

Lemma Rnd_nonneg (V : Z) : 0 <= V -> 0 <= Rnd V.
Proof.
  intros H. unfold Rnd. pose proof (ulp_exp_ge V).
  apply Z.mul_nonneg_nonneg.
  - apply rne_nonneg; lia.
  - pose proof (pow2_pos (ulp_exp V + scale) ltac:(lia)). lia.
Qed.

Lemma Rnd_0 : Rnd 0 = 0.
Proof.
  unfold Rnd. pose proof (ulp_exp_ge 0).
  rewrite <- (Z.mul_0_l (2 ^ (ulp_exp 0 + scale))) at 1.
  rewrite rne_exact by lia. reflexivity.
Qed.

Lemma Rnd_err (V : Z) :
  Z.abs (Rnd V - V) <= 2 ^ (ulp_exp V + scale - 1).
Proof.
  pose proof (ulp_exp_ge V) as Hk.
  pose proof (rne_err V (ulp_exp V + scale) Hk). unfold Rnd. lia.
Qed.

Lemma ulp_exp_le (V M : Z) :
  0 < V < 2 ^ (M + scale) -> -1021 <= M -> ulp_exp V <= M - 53.
Proof.
  intros [H0 HV] HM. pose proof scale_eq.
  unfold ulp_exp.
  assert (Z.log2 V < M + scale) by (apply Z.log2_lt_pow2; lia).
  lia.
Qed.

Lemma Rnd_err_bound (V M : Z) :
  0 < V < 2 ^ (M + scale) -> -1021 <= M ->
  Z.abs (Rnd V - V) <= 2 ^ (M - 54 + scale).
Proof.
  intros HV HM. pose proof scale_eq.
  pose proof (ulp_exp_le V M HV HM) as Hu.
  pose proof (ulp_exp_ge V) as Hk.
  eapply Z.le_trans; [apply Rnd_err |].
  apply pow2_le. lia.
Qed.

Lemma Rnd_mono (V1 V2 : Z) : 0 < V1 -> V1 <= V2 -> Rnd V1 <= Rnd V2.
Proof.
  intros H0 H12. pose proof scale_eq as HS.
  pose proof (ulp_exp_mono V1 V2 H12) as Hu.
  pose proof (ulp_exp_ge V1) as Hk1. pose proof (ulp_exp_ge V2) as Hk2.
  destruct (Z.eq_dec (ulp_exp V1) (ulp_exp V2)) as [E | NE].
  - unfold Rnd. rewrite E.
    apply Z.mul_le_mono_nonneg_r.
    + pose proof (pow2_pos (ulp_exp V2 + scale) ltac:(lia)). lia.
    + apply rne_mono; lia.
  - assert (Hlt : ulp_exp V1 < ulp_exp V2) by lia.
    set (k1 := ulp_exp V1 + scale) in *. set (k2 := ulp_exp V2 + scale) in *.
    set (L1 := Z.log2 V1). set (L2 := Z.log2 V2).
    pose proof (Z.log2_spec V1 H0) as HL1. fold L1 in HL1.
    pose proof (Z.log2_spec V2 ltac:(lia)) as HL2. fold L2 in HL2.
    pose proof (Z.log2_nonneg V1) as HL1n. fold L1 in HL1n.
    assert (Hk2L : k2 = L2 - 52).
    { unfold k2, ulp_exp in *. fold L2. fold L1 in Hlt. lia. }
    assert (Hk1L : L1 - 52 <= k1).
    { unfold k1, ulp_exp. fold L1. lia. }
    (* the lower bound on the right *)
    assert (HR2 : 2 ^ L2 <= Rnd V2).
    { unfold Rnd. fold k2.
      assert (Hp : 2 ^ L2 = 2 ^ 52 * 2 ^ k2).
      { rewrite <- pow2_split by lia. f_equal. lia. }
      rewrite Hp. apply Z.mul_le_mono_nonneg_r.
      - pose proof (pow2_pos k2 ltac:(lia)). lia.
      - rewrite <- (rne_exact (2 ^ 52) k2) at 1 by lia.
        apply rne_mono; lia. }
    (* the upper bound on the left *)
    assert (HR1 : Rnd V1 <= 2 ^ (L1 + 1)).
    { unfold Rnd. fold k1.
      destruct (Z_le_gt_dec k1 (L1 + 1)) as [Hle | Hgt].
      - assert (Hp : 2 ^ (L1 + 1) = 2 ^ (L1 + 1 - k1) * 2 ^ k1).
        { rewrite <- pow2_split by lia. f_equal. lia. }
        rewrite Hp. apply Z.mul_le_mono_nonneg_r.
        + pose proof (pow2_pos k1 ltac:(lia)). lia.
        + rewrite <- (rne_exact (2 ^ (L1 + 1 - k1)) k1) at 1 by lia.
          apply rne_mono; [lia |].
          rewrite <- Hp. replace (L1 + 1) with (Z.succ L1) by lia. lia.
      - assert (Hz : rne V1 k1 = 0).
        { assert (Hsmall : V1 < 2 ^ (k1 - 1)).
          { apply Z.lt_le_trans with (2 ^ Z.succ L1); [lia |].
            apply pow2_le. lia. }
          pose proof (pow2_half k1 ltac:(lia)) as Hh.
          pose proof (pow2_pos (k1 - 1) ltac:(lia)) as Hp1.
          unfold rne.
          rewrite Z.mod_small, Z.div_small by lia.
          assert (Hc : (V1 ?= 2 ^ (k1 - 1)) = Lt)
            by (apply Z.compare_lt_iff; lia).
          now rewrite Hc. }
        rewrite Hz. pose proof (pow2_pos (L1 + 1) ltac:(lia)). lia. }
    assert (2 ^ (L1 + 1) <= 2 ^ L2) by (apply pow2_le; lia).
    lia.
Qed.

Lemma Rnd_mono0 (V1 V2 : Z) : 0 <= V1 -> V1 <= V2 -> Rnd V1 <= Rnd V2.
Proof.
  intros H0 H12. destruct (Z.eq_dec V1 0) as [-> | NZ].
  - rewrite Rnd_0. apply Rnd_nonneg. lia.
  - apply Rnd_mono; lia.
Qed.

(** A canonical mantissa is its own rounding. *)
Lemma Rnd_canonical (m : positive) (e : Z) :
  - scale <= e ->
  canonical_mantissa 53 1024 m e = true ->
  Rnd (Z.pos m * 2 ^ (e + scale)) = Z.pos m * 2 ^ (e + scale).
Proof.
  intros He Hc. pose proof scale_eq.
  unfold canonical_mantissa in Hc. apply Z.eqb_eq in Hc.
  rewrite fexp_eq, digits2_size in Hc.
  unfold Rnd. rewrite ulp_exp_scaled by lia. rewrite Hc.
  assert (-1074 <= e) by lia.
  rewrite rne_exact by lia. reflexivity.
Qed.

End RndFacts.

Section Ops.

Lemma iter_xO (m d : positive) :
  Z.pos (Pos.iter xO m d) = Z.pos m * 2 ^ Z.pos d.
Proof.
  change (Pos.iter xO m d) with (shift_pos d m).
  rewrite shift_pos_correct. change (Z.pow_pos 2 d) with (2 ^ Z.pos d). lia.
Qed.

Lemma shl_align_spec (mx : positive) (ex t : Z) :
  snd (shl_align mx ex t) = Z.min ex t
  /\ Z.pos (fst (shl_align mx ex t)) = Z.pos mx * 2 ^ (ex - Z.min ex t).
Proof.
  unfold shl_align. destruct (t - ex) as [| d | d] eqn:Hd; cbn [fst snd].
  - replace (Z.min ex t) with ex by lia. rewrite Z.sub_diag. split; lia.
  - replace (Z.min ex t) with ex by lia. rewrite Z.sub_diag. split; lia.
  - replace (Z.min ex t) with t by lia. split; [reflexivity |].
    rewrite iter_xO. f_equal. f_equal. lia.
Qed.

Lemma size_le_bound (p : positive) (E M : Z) :
  - scale <= E ->
  Z.pos p * 2 ^ (E + scale) < 2 ^ (M + scale) ->
  0 <= M + scale ->
  Z.pos (Pos.size p) + E <= M.
Proof.
  intros HE HV HM.
  assert (H := log2_scaled p (E + scale) ltac:(lia)).
  assert (Hpos : 0 < Z.pos p * 2 ^ (E + scale)).
  { pose proof (pow2_pos (E + scale) ltac:(lia)). lia. }
  assert (Z.log2 (Z.pos p * 2 ^ (E + scale)) < M + scale)
    by (apply Z.log2_lt_pow2; lia).
  lia.
Qed.

Lemma binary_round_spec (sx : bool) (mx : positive) (ex : Z) :
  -1074 <= ex <= 971 ->
  Z.pos mx * 2 ^ (ex + scale) < 2 ^ (1023 + scale) ->
  let r := binary_round 53 1024 sx mx ex in
  (r = S754_zero sx
   \/ exists m e, r = S754_finite sx m e /\ -1074 <= e <= 971)
  /\ SV r = (if sx then -1 else 1) * Rnd (Z.pos mx * 2 ^ (ex + scale)).
Proof.
  intros He HV r. subst r. pose proof scale_eq as HS.
  unfold binary_round.
  pose proof (shl_align_spec mx ex (fexp 53 1024 (Z.pos (digits2_pos mx) + ex)))
    as [He' Hm'].
  destruct (shl_align mx ex _) as [mz ez]. cbn [fst snd] in He', Hm'.
  rewrite fexp_eq in He', Hm'.
  assert (Hez : -1074 <= ez <= 971) by lia.
  assert (HVz : Z.pos mz * 2 ^ (ez + scale) = Z.pos mx * 2 ^ (ex + scale)).
  { rewrite Hm', <- Z.mul_assoc, <- pow2_split by lia. f_equal. f_equal. lia. }
  assert (Hmu : Z.pos (Pos.size mz) + ez <= 1023).
  { apply size_le_bound; lia. }
  destruct (binary_round_aux_spec sx mz ez ltac:(lia) Hmu) as [Hshape Hval].
  cbv zeta in Hshape, Hval.
  rewrite HVz in Hval. split; [| exact Hval].
  destruct Hshape as [Hz | (m & e & Hf & Hb)]; [now left |].
  right. exists m, e. split; [exact Hf | lia].
Qed.

End Ops.

Section Sub.

Lemma is_time_finite (s : bool) (m : positive) (e : Z) :
  Float.is_time (S754_finite s m e) = true ->
  s = false /\ -1074 <= e <= 971
  /\ canonical_mantissa 53 1024 m e = true
  /\ Rnd (Z.pos m * 2 ^ (e + scale)) = Z.pos m * 2 ^ (e + scale).
Proof.
  pose proof scale_eq as HS. destruct s; [discriminate |]. cbn [Float.is_time].
  unfold bounded, Float.prec, Float.emax. intros H. apply andb_true_iff in H. destruct H as [Hc Hb].
  apply Z.leb_le in Hb.
  assert (Hc' := Hc). unfold canonical_mantissa in Hc'.
  apply Z.eqb_eq in Hc'. rewrite fexp_eq in Hc'.
  assert (-1074 <= e <= 971) by lia.
  repeat split; try assumption; try lia.
  apply Rnd_canonical; [lia | exact Hc].
Qed.

Lemma SV_finite_pos (m : positive) (e : Z) :
  - scale <= e -> 0 < SV (S754_finite false m e).
Proof.
  intros. cbn [SV]. pose proof (pow2_pos (e + scale) ltac:(lia)). lia.
Qed.

Lemma fsub_spec (x y : Float.float) :
  Float.is_time x = true -> Float.is_time y = true ->
  SV x < 2 ^ (1023 + scale) -> SV y < 2 ^ (1023 + scale) ->
  (SV y <= SV x ->
   signed false (Float.sub x y) /\ SV (Float.sub x y) = Rnd (SV x - SV y))
  /\ (SV x <= SV y ->
      signed true (Float.sub x y) /\ SV (Float.sub x y) = - Rnd (SV y - SV x)).
Proof.
  intros Hx Hy Bx By. pose proof scale_eq as HS.
  destruct x as [sx | | | sx mx ex]; try discriminate Hx;
    destruct y as [sy | | | sy my ey]; try discriminate Hy.
  - (* zero - zero *)
    assert (Hz : exists s0, Float.sub (S754_zero sx) (S754_zero sy) = S754_zero s0).
    { destruct sx, sy; eexists; reflexivity. }
    destruct Hz as [s0 Hz]. rewrite Hz. cbn [SV]. rewrite Z.sub_diag, Rnd_0.
    split; intros _; (split; [left; now exists s0 | reflexivity]).
  - (* zero - finite *)
    destruct (is_time_finite _ _ _ Hy) as (-> & Hey & _ & Hr).
    pose proof (SV_finite_pos my ey ltac:(lia)) as Hpos.
    change (Float.sub (S754_zero sx) (S754_finite false my ey))
      with (S754_finite true my ey).
    split; intros Hle.
    + cbn [SV] in Hle, Hpos. lia.
    + split; [right; exists my, ey; split; [reflexivity | lia] |].
      cbn [SV]. rewrite Z.sub_0_r, Z.mul_1_l, Hr. lia.
  - (* finite - zero *)
    destruct (is_time_finite _ _ _ Hx) as (-> & Hex & _ & Hr).
    pose proof (SV_finite_pos mx ex ltac:(lia)) as Hpos.
    change (Float.sub (S754_finite false mx ex) (S754_zero sy))
      with (S754_finite false mx ex).
    split; intros Hle.
    + split; [right; exists mx, ex; split; [reflexivity | lia] |].
      cbn [SV]. rewrite Z.sub_0_r, Z.mul_1_l, Hr. lia.
    + cbn [SV] in Hle, Hpos. lia.
  - (* finite - finite *)
    destruct (is_time_finite _ _ _ Hx) as (-> & Hex & _ & _).
    destruct (is_time_finite _ _ _ Hy) as (-> & Hey & _ & _).
    unfold Float.sub, SFsub, Float.prec, Float.emax. cbn [cond_Zopp].
    set (ez := Z.min ex ey).
    destruct (shl_align_spec mx ex ez) as [_ Hmx].
    destruct (shl_align_spec my ey ez) as [_ Hmy].
    replace (Z.min ex ez) with ez in Hmx by lia.
    replace (Z.min ey ez) with ez in Hmy by lia.
    set (ax := fst (shl_align mx ex ez)) in *.
    set (ay := fst (shl_align my ey ez)) in *.
    assert (Hax : Z.pos ax * 2 ^ (ez + scale) = SV (S754_finite false mx ex)).
    { cbn [SV]. rewrite Hmx, <- Z.mul_assoc, <- pow2_split by lia.
      rewrite Z.mul_1_l. f_equal. f_equal. lia. }
    assert (Hay : Z.pos ay * 2 ^ (ez + scale) = SV (S754_finite false my ey)).
    { cbn [SV]. rewrite Hmy, <- Z.mul_assoc, <- pow2_split by lia.
      rewrite Z.mul_1_l. f_equal. f_equal. lia. }
    set (Vx := SV (S754_finite false mx ex)) in *.
    set (Vy := SV (S754_finite false my ey)) in *.
    pose proof (pow2_pos (ez + scale) ltac:(lia)) as Hp.
    assert (HD : (Z.pos ax - Z.pos ay) * 2 ^ (ez + scale) = Vx - Vy) by lia.
    assert (HVx : 0 < Vx) by (apply SV_finite_pos; lia).
    assert (HVy : 0 < Vy) by (apply SV_finite_pos; lia).
    destruct (Z.pos ax - Z.pos ay) as [| p | p] eqn:ED;
      cbn [binary_normalize].
    + (* equal *)
      assert (Vx - Vy = 0) by lia.
      replace (Vx - Vy) with 0 by lia. replace (Vy - Vx) with 0 by lia.
      rewrite Rnd_0. cbn [SV].
      split; intros _; (split; [left; now exists false | reflexivity]).
    + destruct (binary_round_spec false p ez ltac:(lia)) as [Hs Hv].
      { rewrite HD. lia. }
      cbv zeta in Hs, Hv. rewrite HD in Hv.
      split; intros Hle; [| lia].
      split; [| rewrite Hv; lia].
      destruct Hs as [-> | (m & e & -> & Hb)];
        [left; now exists false | right; now exists m, e].
    + destruct (binary_round_spec true p ez ltac:(lia)) as [Hs Hv].
      { replace (Z.pos p * 2 ^ (ez + scale)) with (Vy - Vx) by lia. lia. }
      cbv zeta in Hs, Hv.
      replace (Z.pos p * 2 ^ (ez + scale)) with (Vy - Vx) in Hv by lia.
      split; intros Hle; [lia |].
      split; [| rewrite Hv; lia].
      destruct Hs as [-> | (m & e & -> & Hb)];
        [left; now exists true | right; now exists m, e].
Qed.

End Sub.

Section Mul.

Lemma fmul50_spec (s : bool) (y : Float.float) :
  signed s y ->
  50 * Z.abs (SV y) < 2 ^ (1023 + scale) ->
  (exists s0, Float.mul (Float.of_int 50) y = S754_zero s0 /\ SV y = 0)
  \/ (exists m e,
        Float.mul (Float.of_int 50) y = S754_finite s m e /\ -1121 <= e <= 971
        /\ Z.pos m * 2 ^ (e + scale) = Rnd (50 * Z.abs (SV y)))
  \/ (exists s0, Float.mul (Float.of_int 50) y = S754_zero s0 /\ Rnd (50 * Z.abs (SV y)) = 0).
Proof.
  intros Hy HB. pose proof scale_eq as HS.
  destruct Hy as [[s0 ->] | (m & e & -> & He)].
  - left. exists (xorb false s0). split; reflexivity.
  - change (Float.of_int 50)
      with (S754_finite false 7036874417766400 (-47)).
    unfold Float.mul, SFmul, Float.prec, Float.emax. cbn [xorb].
    set (m50 := 7036874417766400%positive).
    assert (HV : Z.pos (m50 * m) * 2 ^ (-47 + e + scale)
                 = 50 * (Z.pos m * 2 ^ (e + scale))).
    { rewrite Pos2Z.inj_mul.
      replace (e + scale) with (47 + (-47 + e + scale)) by lia.
      rewrite (pow2_split 47 (-47 + e + scale)) by lia.
      change (Z.pos m50) with (50 * 2 ^ 47). lia. }
    assert (Habs : Z.abs (SV (S754_finite s m e)) = Z.pos m * 2 ^ (e + scale)).
    { cbn [SV]. pose proof (pow2_pos (e + scale) ltac:(lia)).
      destruct s; lia. }
    rewrite Habs in HB |- *.
    assert (Hmu : Z.pos (Pos.size (m50 * m)) + (-47 + e) <= 1023).
    { apply size_le_bound; [lia | rewrite HV; exact HB | lia]. }
    destruct (binary_round_aux_spec s (m50 * m) (-47 + e) ltac:(lia) Hmu)
      as [Hs Hv].
    cbv zeta in Hs, Hv. rewrite HV in Hv.
    destruct Hs as [Hz | (m' & e' & Hf & Hb)].
    + right. right. exists s. split; [destruct s; exact Hz |].
      rewrite Hz in Hv. cbn [SV] in Hv. destruct s; lia.
    + right. left. exists m', e'. split; [destruct s; exact Hf |].
      split; [lia |].
      rewrite Hf in Hv. cbn [SV] in Hv. destruct s; lia.
Qed.

Lemma shiftl_scaled (m : positive) (e : Z) :
  - scale <= e ->
  Z.shiftl (Z.pos m) e = (Z.pos m * 2 ^ (e + scale)) / 2 ^ scale.
Proof.
  intros He. pose proof scale_eq as HS.
  pose proof (pow2_pos scale ltac:(lia)) as Hp.
  destruct (Z_le_gt_dec 0 e) as [Hpos | Hneg].
  - rewrite Z.shiftl_mul_pow2 by lia.
    rewrite pow2_split by lia.
    rewrite Z.mul_assoc, Z.div_mul by lia. reflexivity.
  - rewrite Z.shiftl_div_pow2 by lia.
    replace scale with ((- e) + (e + scale)) at 2 by lia.
    rewrite (pow2_split (- e) (e + scale)) by lia.
    pose proof (pow2_pos (e + scale) ltac:(lia)).
    pose proof (pow2_pos (- e) ltac:(lia)).
    rewrite Z.div_mul_cancel_r by lia. reflexivity.
Qed.

Lemma SV_time_nonneg (x : Float.float) :
  Float.is_time x = true -> 0 <= SV x.
Proof.
  intros H. pose proof scale_eq.
  destruct x as [| | | s m e]; cbn [SV]; try lia.
  destruct (is_time_finite _ _ _ H) as (-> & He & _).
  pose proof (pow2_pos (e + scale) ltac:(lia)). lia.
Qed.

(** The reading as a function of the scaled time stamps. *)
Lemma readTicks_scaled (now : Float.float) (s : FlowSimulator.t) :
  Float.is_time now = true ->
  Float.is_time (FlowSimulator.open_time s) = true ->
  SV now < 2 ^ (1000 + scale) ->
  SV (FlowSimulator.open_time s) < 2 ^ (1000 + scale) ->
  FlowSimulator.readTicks now s
  = Return (ticksZ (SV now - SV (FlowSimulator.open_time s))).
Proof.
  intros Hn Ho Bn Bo. pose proof scale_eq as HS.
  set (o := FlowSimulator.open_time s) in *.
  assert (HB : 2 ^ (1000 + scale) <= 2 ^ (1023 + scale))
    by (apply pow2_le; lia).
  pose proof (SV_time_nonneg now Hn) as Hn0.
  pose proof (SV_time_nonneg o Ho) as Ho0.
  destruct (fsub_spec now o Hn Ho ltac:(lia) ltac:(lia)) as [Hge Hle].
  set (V := SV now - SV o) in *.
  pose proof (pow2_pos scale ltac:(lia)) as Hps.
  assert (Hsmall : forall W, 0 <= W < 2 ^ (1000 + scale) ->
                             50 * Rnd W < 2 ^ (1023 + scale)).
  { intros W HW.
    assert (Hr : Rnd W <= 2 * 2 ^ (1000 + scale)).
    { destruct (Z.eq_dec W 0) as [-> | NZ]; [rewrite Rnd_0; lia |].
      pose proof (Rnd_err_bound W 1000 ltac:(lia) ltac:(lia)) as He.
      assert (2 ^ (1000 - 54 + scale) <= 2 ^ (1000 + scale))
        by (apply pow2_le; lia).
      lia. }
    replace (1023 + scale) with (23 + (1000 + scale)) by lia.
    rewrite (pow2_split 23 (1000 + scale)) by lia.
    change (2 ^ 23) with 8388608. lia. }
  unfold FlowSimulator.readTicks, ticksZ. fold o.
  destruct (0 <=? V) eqn:EV.
  - apply Z.leb_le in EV.
    destruct (Hge ltac:(lia)) as [Hsh Hval].
    assert (Habs : Z.abs (SV (Float.sub now o)) = Rnd V).
    { rewrite Hval. pose proof (Rnd_nonneg V EV). lia. }
    destruct (fmul50_spec false (Float.sub now o) Hsh) as
      [(s0 & -> & Hz) | [(m & e & -> & He & Hv) | (s0 & -> & Hz)]].
    + rewrite Habs. apply Hsmall. lia.
    + cbn [Float.to_int rbind]. rewrite Hz in Habs. rewrite <- Habs.
      rewrite Z.mul_0_r, Rnd_0. rewrite Z.div_0_l by lia. reflexivity.
    + cbn [Float.to_int rbind cond_Zopp]. rewrite shiftl_scaled by lia.
      rewrite Hv, Habs. f_equal.
      pose proof (Rnd_nonneg (50 * Rnd V)
                    ltac:(pose proof (Rnd_nonneg V EV); lia)).
      pose proof (Z.div_pos (Rnd (50 * Rnd V)) (2 ^ scale) ltac:(lia) Hps).
      lia.
    + cbn [Float.to_int rbind]. rewrite Habs in Hz. rewrite Hz.
      rewrite Z.div_0_l by lia. reflexivity.
  - apply Z.leb_gt in EV.
    destruct (Hle ltac:(lia)) as [Hsh Hval].
    assert (Habs : Z.abs (SV (Float.sub now o)) = Rnd (- V)).
    { rewrite Hval. pose proof (Rnd_nonneg (- V) ltac:(lia)).
      replace (SV o - SV now) with (- V) by (unfold V; lia). lia. }
    destruct (fmul50_spec true (Float.sub now o) Hsh) as
      [(s0 & -> & Hz) | [(m & e & -> & He & Hv) | (s0 & -> & Hz)]].
    + rewrite Habs. apply Hsmall. unfold V in *. lia.
    + reflexivity.
    + cbn [Float.to_int rbind cond_Zopp]. f_equal.
      pose proof (Z.shiftl_nonneg (Z.pos m) e). lia.
    + reflexivity.
Qed.

End Mul.

Section TicksZ.

Lemma ticksZ_nonneg (V : Z) : 0 <= ticksZ V.
Proof.
  pose proof scale_eq. unfold ticksZ. destruct (0 <=? V) eqn:E; [| lia].
  apply Z.leb_le in E. apply Z.div_pos.
  - apply Rnd_nonneg. pose proof (Rnd_nonneg V E). lia.
  - apply pow2_pos. lia.
Qed.

Lemma ticksZ_nonpos (V : Z) : V <= 0 -> ticksZ V = 0.
Proof.
  intros H. pose proof scale_eq. unfold ticksZ.
  destruct (0 <=? V) eqn:E; [| reflexivity].
  apply Z.leb_le in E. replace V with 0 by lia.
  rewrite Rnd_0, Z.mul_0_r, Rnd_0. apply Z.div_0_l.
  pose proof (pow2_pos scale ltac:(lia)). lia.
Qed.

Lemma ticksZ_mono (V1 V2 : Z) : V1 <= V2 -> ticksZ V1 <= ticksZ V2.
Proof.
  intros H. pose proof scale_eq.
  destruct (Z_le_gt_dec V1 0) as [H1 | H1].
  - rewrite (ticksZ_nonpos V1 H1). apply ticksZ_nonneg.
  - unfold ticksZ.
    replace (0 <=? V1) with true by (symmetry; apply Z.leb_le; lia).
    replace (0 <=? V2) with true by (symmetry; apply Z.leb_le; lia).
    apply Z.div_le_mono; [apply pow2_pos; lia |].
    apply Rnd_mono0.
    + pose proof (Rnd_nonneg V1 ltac:(lia)). lia.
    + pose proof (Rnd_mono V1 V2 ltac:(lia) H). lia.
Qed.

(** the two roundings lose less than 1/128 of a tick below 2^40 seconds *)
Lemma ticksZ_err (V : Z) :
  0 <= V < 2 ^ (40 + scale) ->
  Z.abs (Rnd (50 * Rnd V) - 50 * V) <= 2 ^ (scale - 7).
Proof.
  intros [H0 HV]. pose proof scale_eq as HS.
  destruct (Z.eq_dec V 0) as [-> | NZ].
  - pose proof (pow2_pos (scale - 7) ltac:(lia)) as Hp7.
    rewrite Rnd_0, Z.mul_0_r, Rnd_0. rewrite Z.sub_diag. cbn [Z.abs]. lia.
  - pose proof (Rnd_err_bound V 40 ltac:(lia) ltac:(lia)) as E1.
    replace (40 - 54 + scale) with (scale - 14) in E1 by lia.
    assert (P40 : 2 ^ (40 + scale) = 2 ^ 54 * 2 ^ (scale - 14)).
    { rewrite <- pow2_split by lia. f_equal; lia. }
    assert (P46 : 2 ^ (46 + scale) = 2 ^ 60 * 2 ^ (scale - 14)).
    { rewrite <- pow2_split by lia. f_equal; lia. }
    assert (P8 : 2 ^ (scale - 8) = 2 ^ 6 * 2 ^ (scale - 14)).
    { rewrite <- pow2_split by lia. f_equal; lia. }
    assert (P7 : 2 ^ (scale - 7) = 2 ^ 7 * 2 ^ (scale - 14)).
    { rewrite <- pow2_split by lia. f_equal; lia. }
    pose proof (pow2_pos (scale - 14) ltac:(lia)) as Hp.
    set (w := 2 ^ (scale - 14)) in *.
    change (2 ^ 54) with 18014398509481984 in P40.
    change (2 ^ 60) with 1152921504606846976 in P46.
    change (2 ^ 6) with 64 in P8. change (2 ^ 7) with 128 in P7.
    pose proof (Rnd_nonneg V H0) as Hr0.
    destruct (Z.eq_dec (Rnd V) 0) as [Hz | Hnz].
    { rewrite Hz in *. rewrite Z.mul_0_r, Rnd_0. lia. }
    assert (B2 : 0 < 50 * Rnd V < 2 ^ (46 + scale)) by lia.
    pose proof (Rnd_err_bound (50 * Rnd V) 46 B2 ltac:(lia)) as E2.
    replace (46 - 54 + scale) with (scale - 8) in E2 by lia.
    lia.
Qed.

Lemma ticksZ_bounds (V : Z) :
  0 <= V < 2 ^ (40 + scale) ->
  50 * V - 2 ^ (scale - 7) - 2 ^ scale < ticksZ V * 2 ^ scale
  /\ ticksZ V * 2 ^ scale <= 50 * V + 2 ^ (scale - 7).
Proof.
  intros HV. pose proof scale_eq as HS.
  pose proof (ticksZ_err V HV) as He.
  pose proof (pow2_pos scale ltac:(lia)) as Hp.
  unfold ticksZ.
  replace (0 <=? V) with true by (symmetry; apply Z.leb_le; lia).
  set (Y := Rnd (50 * Rnd V)) in *.
  pose proof (Z.div_mod Y (2 ^ scale) ltac:(lia)) as Hdm.
  pose proof (Z.mod_pos_bound Y (2 ^ scale) Hp) as Hm.
  set (q := Y / 2 ^ scale) in *. set (p := 2 ^ scale) in *.
  nia.
Qed.

Lemma ticksZ_grows (V1 V2 : Z) :
  0 <= V1 -> V2 < 2 ^ (40 + scale) ->
  2 ^ scale <= 25 * (V2 - V1) ->
  ticksZ V1 < ticksZ V2.
Proof.
  intros H1 H2 Hd. pose proof scale_eq as HS.
  pose proof (pow2_pos scale ltac:(lia)) as Hp.
  pose proof (pow2_pos (scale - 7) ltac:(lia)) as Hp7.
  assert (P7 : 2 ^ scale = 128 * 2 ^ (scale - 7)).
  { change 128 with (2 ^ 7). rewrite <- pow2_split by lia. f_equal; lia. }
  destruct (ticksZ_bounds V1 ltac:(lia)) as [_ U1].
  destruct (ticksZ_bounds V2 ltac:(lia)) as [L2 _].
  set (p := 2 ^ scale) in *. set (w := 2 ^ (scale - 7)) in *.
  nia.
Qed.

End TicksZ.

Section Bridge.

Lemma inject_pow2 (k : Z) : 0 <= k -> (inject_Z (2 ^ k) == (2 # 1) ^ k)%Q.
Proof. intros H. now rewrite Zpower_Qpower. Qed.

Lemma P_pos : (0 < inject_Z (2 ^ scale))%Q.
Proof.
  pose proof scale_eq. pose proof (pow2_pos scale ltac:(lia)) as H0.
  change 0%Q with (inject_Z 0). rewrite <- Zlt_Qlt. exact H0.
Qed.

(** [Float.to_Q] against the scaled value *)
Lemma to_Q_SV (x : Float.float) (q : Q) :
  Float.is_time x = true -> Float.to_Q x = Some q ->
  (q * inject_Z (2 ^ scale) == inject_Z (SV x))%Q.
Proof.
  intros Ht Hq. pose proof scale_eq as HS.
  destruct x as [s | | | s m e]; try discriminate Ht.
  - injection Hq as <-. cbn [SV]. reflexivity.
  - destruct (is_time_finite _ _ _ Ht) as (-> & He & _).
    injection Hq as <-. cbn [SV].
    rewrite Z.mul_1_l, inject_Z_mult.
    rewrite (inject_pow2 (e + scale)) by lia.
    rewrite Qpower_plus by discriminate.
    rewrite (inject_pow2 scale) by lia.
    ring.
Qed.

Lemma to_Q_time (x : Float.float) :
  Float.is_time x = true -> exists q, Float.to_Q x = Some q.
Proof.
  destruct x as [s | | | s m e]; try discriminate; intros _; now eexists.
Qed.

Lemma Qle_scaled (q1 q2 : Q) (v1 v2 : Z) :
  (q1 * inject_Z (2 ^ scale) == inject_Z v1)%Q ->
  (q2 * inject_Z (2 ^ scale) == inject_Z v2)%Q ->
  (q1 <= q2)%Q -> v1 <= v2.
Proof.
  intros H1 H2 H. rewrite Zle_Qle, <- H1, <- H2.
  apply Qmult_le_r; [apply P_pos | exact H].
Qed.

Lemma Qlt_scaled_bound (q : Q) (v M : Z) :
  0 <= M ->
  (q * inject_Z (2 ^ scale) == inject_Z v)%Q ->
  (q < inject_Z (2 ^ M))%Q -> v < 2 ^ (M + scale).
Proof.
  intros HM H1 H. pose proof scale_eq.
  rewrite Zlt_Qlt, <- H1, pow2_split, inject_Z_mult by lia.
  apply Qmult_lt_r; [apply P_pos | exact H].
Qed.

Lemma Qstep_scaled (q1 q2 : Q) (v1 v2 : Z) :
  (q1 * inject_Z (2 ^ scale) == inject_Z v1)%Q ->
  (q2 * inject_Z (2 ^ scale) == inject_Z v2)%Q ->
  (q1 + (1 # 25) <= q2)%Q -> 2 ^ scale <= 25 * (v2 - v1).
Proof.
  intros H1 H2 H.
  rewrite Zle_Qle, inject_Z_mult.
  unfold Z.sub. rewrite inject_Z_plus, inject_Z_opp, <- H1, <- H2.
  pose proof P_pos as HP. set (P := inject_Z (2 ^ scale)) in *.
  assert (HE : (inject_Z 25 * (q2 * P + - (q1 * P))
                == (inject_Z 25 * (q2 - q1)) * P)%Q) by ring.
  rewrite HE. rewrite <- (Qmult_1_l P) at 1.
  apply Qmult_le_r; [exact HP |].
  assert (Hd : ((1 # 25) <= q2 - q1)%Q).
  { lra. }
  apply (Qmult_le_l _ _ (inject_Z 25)) in Hd; [| reflexivity].
  assert (E1 : (inject_Z 25 * (1 # 25) == 1)%Q) by reflexivity.
  rewrite E1 in Hd. exact Hd.
Qed.

(** the bounds of [ticksZ_bounds] in rationals *)
Lemma ticks_bounds_Q (qn qo : Q) (vn vo n : Z) :
  (qn * inject_Z (2 ^ scale) == inject_Z vn)%Q ->
  (qo * inject_Z (2 ^ scale) == inject_Z vo)%Q ->
  50 * (vn - vo) - 2 ^ (scale - 7) - 2 ^ scale < n * 2 ^ scale ->
  n * 2 ^ scale <= 50 * (vn - vo) + 2 ^ (scale - 7) ->
  (inject_Z 50 * (qn - qo) - 1 - (1 # 128) < inject_Z n
   /\ inject_Z n <= inject_Z 50 * (qn - qo) + (1 # 128))%Q.
Proof.
  intros Hn Ho HL HU. pose proof scale_eq as HS.
  pose proof P_pos as HP.
  assert (P7 : 2 ^ scale = 128 * 2 ^ (scale - 7)).
  { change 128 with (2 ^ 7). rewrite <- pow2_split by lia. f_equal; lia. }
  assert (HL' : 128 * (50 * (vn - vo)) - 129 * 2 ^ scale < 128 * n * 2 ^ scale)
    by lia.
  assert (HU' : 128 * n * 2 ^ scale <= 128 * (50 * (vn - vo)) + 2 ^ scale)
    by lia.
  clear HL HU P7.
  rewrite Zlt_Qlt in HL'. rewrite Zle_Qle in HU'.
  unfold Z.sub in HL', HU'.
  repeat rewrite ?inject_Z_plus, ?inject_Z_mult, ?inject_Z_opp in HL', HU'.
  rewrite <- Hn, <- Ho in HL', HU'.
  set (P := inject_Z (2 ^ scale)) in *.
  split.
  - apply (Qmult_lt_r _ _ (inject_Z 128 * P)).
    + apply Qmult_lt_0_compat; [reflexivity | exact HP].
    + eapply Qle_lt_trans; [| eapply Qlt_le_trans; [exact HL' |]].
      * assert (E : ((inject_Z 50 * (qn - qo) - 1 - (1 # 128)) * (inject_Z 128 * P)
                     == inject_Z 128 * (inject_Z 50 * (qn * P + - (qo * P)))
                        + - (inject_Z 129 * P))%Q).
        { assert (E0 : ((1 # 128) * inject_Z 128 == 1)%Q) by reflexivity.
          setoid_replace ((inject_Z 50 * (qn - qo) - 1 - (1 # 128)) * (inject_Z 128 * P))%Q
            with (inject_Z 128 * (inject_Z 50 * (qn * P + - (qo * P)))
                  - inject_Z 128 * P - ((1 # 128) * inject_Z 128) * P)%Q by ring.
          rewrite E0.
          assert (E2 : (inject_Z 129 == inject_Z 128 + 1)%Q) by reflexivity.
          rewrite E2. ring. }
        rewrite E. apply Qle_refl.
      * assert (E : (inject_Z 128 * inject_Z n * P
                     == inject_Z n * (inject_Z 128 * P))%Q) by ring.
        rewrite E. apply Qle_refl.
  - apply (Qmult_le_r _ _ (inject_Z 128 * P)).
    + apply Qmult_lt_0_compat; [reflexivity | exact HP].
    + eapply Qle_trans; [| eapply Qle_trans; [exact HU' |]].
      * assert (E : (inject_Z 128 * inject_Z n * P
                     == inject_Z n * (inject_Z 128 * P))%Q) by ring.
        rewrite E. apply Qle_refl.
      * assert (E0 : ((1 # 128) * inject_Z 128 == 1)%Q) by reflexivity.
        setoid_replace ((inject_Z 50 * (qn - qo) + (1 # 128)) * (inject_Z 128 * P))%Q
          with (inject_Z 128 * (inject_Z 50 * (qn * P + - (qo * P)))
                + ((1 # 128) * inject_Z 128) * P)%Q by ring.
        rewrite E0. rewrite Qmult_1_l. apply Qle_refl.
Qed.

(** The hypotheses the theorems make on a time stamp, and what they give:
    the reading is [ticksZ] of the scaled difference. *)
Lemma readTicks_rational
  (now : Float.float) (s : FlowSimulator.t) (qn qo : Q) :
  Float.is_time now = true ->
  Float.is_time (FlowSimulator.open_time s) = true ->
  Float.to_Q now = Some qn ->
  Float.to_Q (FlowSimulator.open_time s) = Some qo ->
  (qn < inject_Z (2 ^ 40))%Q -> (qo < inject_Z (2 ^ 40))%Q ->
  FlowSimulator.readTicks now s
  = Return (ticksZ (SV now - SV (FlowSimulator.open_time s)))
  /\ (qn * inject_Z (2 ^ scale) == inject_Z (SV now))%Q
  /\ (qo * inject_Z (2 ^ scale)
      == inject_Z (SV (FlowSimulator.open_time s)))%Q
  /\ 0 <= SV now < 2 ^ (40 + scale)
  /\ 0 <= SV (FlowSimulator.open_time s) < 2 ^ (40 + scale).
Proof.
  intros Hn Ho Qn Qo Bn Bo. pose proof scale_eq as HS.
  pose proof (to_Q_SV _ _ Hn Qn) as En.
  pose proof (to_Q_SV _ _ Ho Qo) as Eo.
  pose proof (Qlt_scaled_bound _ _ 40 ltac:(lia) En Bn) as Ln.
  pose proof (Qlt_scaled_bound _ _ 40 ltac:(lia) Eo Bo) as Lo.
  pose proof (SV_time_nonneg _ Hn). pose proof (SV_time_nonneg _ Ho).
  assert (2 ^ (40 + scale) <= 2 ^ (1000 + scale)) by (apply pow2_le; lia).
  split; [apply readTicks_scaled; (assumption || lia) |].
  repeat split; (assumption || lia).
Qed.

End Bridge.

(** ** The simulator *)

(** C10. [readTicks] of the simulator is [max(0, int(50 * (now -
    open_time)))], computed in binary64, and does not look at the valve:
    states that differ in the valve attribute only give the same reading,
    and [closeValve] changes no reading.  So after the valve is closed the
    reading still grows: for time stamps below 2^40 s it is larger whenever
    the clock is at least 1/25 s further.  And while [open_time] is the 0 of
    [__init__], the reading is 50 times the wall clock, to within one tick
    and the rounding of the float product. *)
Theorem simulator_readTicks_ignores_valve :
  (forall (now : Float.float) (s : FlowSimulator.t),
      FlowSimulator.readTicks now s
      = (n <-? Float.to_int
                 (Float.mul (Float.of_int 50)
                    (Float.sub now (FlowSimulator.open_time s))) ;;
         Return (Z.max 0 n)))
  /\ (forall (now : Float.float) (f v v' k : Z) (o : Float.float),
        FlowSimulator.readTicks now (FlowSimulator.mk f v k o)
        = FlowSimulator.readTicks now (FlowSimulator.mk f v' k o))
  /\ (forall (now : Float.float) (s : FlowSimulator.t),
        FlowSimulator.readTicks now (FlowSimulator.closeValve s)
        = FlowSimulator.readTicks now s)
  /\ (forall (opened t1 t2 : Float.float) (q0 q1 q2 : Q)
             (s : FlowSimulator.t),
        Float.is_time opened = true -> Float.is_time t1 = true ->
        Float.is_time t2 = true ->
        Float.to_Q opened = Some q0 -> Float.to_Q t1 = Some q1 ->
        Float.to_Q t2 = Some q2 ->
        (q0 <= q1)%Q -> (q1 + (1 # 25) <= q2)%Q ->
        (q2 < inject_Z (2 ^ 40))%Q ->
        let closed :=
          FlowSimulator.closeValve (FlowSimulator.openValve opened s) in
        FlowSimulator.valve closed = 0
        /\ exists n1 n2,
             FlowSimulator.readTicks t1 closed = Return n1
             /\ FlowSimulator.readTicks t2 closed = Return n2
             /\ n1 < n2)
  /\ (forall (now : Float.float) (q : Q),
        Float.is_time now = true -> Float.to_Q now = Some q ->
        (q < inject_Z (2 ^ 40))%Q ->
        exists n,
          FlowSimulator.readTicks now FlowSimulator.init = Return n
          /\ FlowSimulator.readTicks now
               (FlowSimulator.closeValve FlowSimulator.init) = Return n
          /\ (inject_Z 50 * q - 1 - (1 # 128) < inject_Z n)%Q
          /\ (inject_Z n <= inject_Z 50 * q + (1 # 128))%Q).
Proof.
  split; [reflexivity |]. split; [reflexivity |]. split; [reflexivity |].
  pose proof scale_eq as HS.
  split.
  - intros opened t1 t2 q0 q1 q2 s Ho H1 H2 Q0 Q1 Q2 L01 L12 B2 closed.
    split; [reflexivity |].
    assert (B1 : (q1 < inject_Z (2 ^ 40))%Q) by lra.
    assert (B0 : (q0 < inject_Z (2 ^ 40))%Q) by lra.
    destruct (readTicks_rational t1 closed q1 q0 H1 Ho Q1 Q0 B1 B0)
      as (R1 & E1 & E0 & S1 & S0).
    destruct (readTicks_rational t2 closed q2 q0 H2 Ho Q2 Q0 B2 B0)
      as (R2 & E2 & _ & S2 & _).
    cbn [FlowSimulator.open_time closed FlowSimulator.closeValve
           FlowSimulator.openValve] in *.
    do 2 eexists. split; [exact R1 |]. split; [exact R2 |].
    pose proof (Qle_scaled _ _ _ _ E0 E1 L01).
    pose proof (Qstep_scaled _ _ _ _ E1 E2 L12).
    apply ticksZ_grows; lia.
  - intros now q Hn Qn Bn.
    assert (B0 : ((0 # 1) < inject_Z (2 ^ 40))%Q) by reflexivity.
    destruct (readTicks_rational now FlowSimulator.init q (0 # 1) Hn
                eq_refl Qn eq_refl Bn B0) as (R & E & E0 & Sn & _).
    change (SV (FlowSimulator.open_time FlowSimulator.init)) with 0 in *.
    rewrite Z.sub_0_r in R.
    exists (ticksZ (SV now)). split; [exact R |]. split; [exact R |].
    destruct (ticksZ_bounds (SV now) Sn) as [L U].
    destruct (ticks_bounds_Q q (0 # 1) (SV now) 0 (ticksZ (SV now)) E E0)
      as [LQ UQ]; [rewrite Z.sub_0_r; exact L | rewrite Z.sub_0_r; exact U |].
    split; lra.
Qed.

(** The valve is opened at 1000.0 s and closed; the reading is 50 at
    1001.0 s and 100 at 1002.0 s.  A simulator whose valve was never opened
    reads 85 000 000 001 at the binary64 time 1700000000.02. *)
Lemma simulator_readTicks_ignores_valve_witness :
  let closed :=
    FlowSimulator.closeValve
      (FlowSimulator.openValve (Float.of_int 1000) FlowSimulator.init) in
  (exists n1 n2,
     FlowSimulator.readTicks (Float.of_int 1001) closed = Return n1
     /\ FlowSimulator.readTicks (Float.of_int 1002) closed = Return n2
     /\ n1 < n2)
  /\ FlowSimulator.readTicks (Float.of_int 1001) closed = Return 50
  /\ FlowSimulator.readTicks (Float.of_int 1002) closed = Return 100
  /\ FlowSimulator.readTicks (S754_finite false 7130316800083886 (-22))
       FlowSimulator.init = Return 85000000001.
Proof.
  intros closed.
  destruct simulator_readTicks_ignores_valve as (_ & _ & _ & Hgrow & _).
  split; [| repeat split].
  apply (Hgrow (Float.of_int 1000) (Float.of_int 1001) (Float.of_int 1002)
           _ _ _ FlowSimulator.init eq_refl eq_refl eq_refl
           eq_refl eq_refl eq_refl).
  - apply Qle_bool_imp_le. vm_compute. reflexivity.
  - apply Qle_bool_imp_le. vm_compute. reflexivity.
  - unfold Qlt. vm_compute. reflexivity.
Defined.

(** * Further properties of the code *)

(** ** Framing *)

(** [recvPacket] cuts the payload out with [line[2:-2]].  The cut undoes
    the framing, and a line that passes both boundary checks is the frame of
    what the cut gives; such a line has four bytes more than its payload. *)
Theorem frame_slice_round_trip (payload line : string) :
  (Py.startswith (frame payload) "M:" = true
   /\ Py.endswith (frame payload) CRLF = true
   /\ Py.slice 2 2 (frame payload) = payload
   /\ String.length (frame payload) = (String.length payload + 4)%nat)
  /\ (Py.startswith line "M:" = true -> Py.endswith line CRLF = true ->
      frame (Py.slice 2 2 line) = line
      /\ String.length line = (String.length (Py.slice 2 2 line) + 4)%nat).
Proof.
  assert (Hlen : forall q, String.length (frame q) = (String.length q + 4)%nat).
  { intros q. unfold frame. simpl. rewrite length_append. simpl. lia. }
  split.
  - split; [apply frame_startswith |]. split; [apply frame_endswith |].
    split; [apply slice_frame | apply Hlen].
  - intros Hm He. pose proof (frame_shape line Hm He) as Hs.
    split; [now symmetry |]. rewrite Hs at 1. apply Hlen.
Qed.

Lemma frame_slice_round_trip_witness :
  Py.slice 2 2 (frame report5) = report5
  /\ frame (Py.slice 2 2 (frame report7)) = frame report7.
Proof.
  split.
  - apply (proj1 (frame_slice_round_trip report5 "")).
  - apply (proj2 (frame_slice_round_trip "" (frame report7)));
      reflexivity.
Defined.

(** ** Outcomes of [recvPacket] *)

Section Outcomes.

Lemma recvPacket_result_short (line : string) (fc : FlowController) :
  short_frame line = true -> recvPacket line fc = (fc, Raise IndexError).
Proof.
  unfold short_frame. intros H.
  apply andb_true_iff in H. destruct H as [H Hlen].
  apply andb_true_iff in H. destruct H as [Hm He].
  apply Nat.ltb_lt in Hlen.
  rewrite (frame_shape line Hm He). now apply recvPacket_by_length.
Qed.

Lemma recvPacket_result_malformed (line : string) (fc : FlowController) :
  malformed line = true ->
  exists msg, recvPacket line fc = (logged INFO msg fc, Return None).
Proof.
  unfold malformed. intros H.
  apply andb_true_iff in H. destruct H as [Hne Hb].
  apply negb_true_iff in Hne. apply String.eqb_neq in Hne.
  apply negb_true_iff in Hb.
  destruct (Py.startswith line "M:") eqn:Hm.
  - simpl in Hb. eexists. now apply recvPacket_bad_trailer.
  - eexists. now apply recvPacket_no_start.
Qed.

End Outcomes.

(** What each outcome of [recvPacket] says about the line, and back: the
    call exits on the empty line only, raises [IndexError] exactly on a
    well-bounded frame with fewer than seven payload bytes, returns a packet
    exactly on a well-bounded frame with seven or more, returns [None]
    exactly on a non-empty line that fails a boundary check, and never
    waits. *)
Theorem recvPacket_outcomes (line : string) (fc : FlowController) :
  let r := snd (recvPacket line fc) in
  (r = Raise (SystemExit 1) <-> line = "")
  /\ (r = Raise IndexError <-> short_frame line = true)
  /\ ((exists p, r = Return (Some p)) <->
      exists payload,
        line = frame payload /\ (7 <= String.length payload)%nat)
  /\ (r = Return None <-> malformed line = true)
  /\ r <> Blocks.
Proof.
  intros r. subst r.
  destruct (recvPacket_cases line fc)
    as [Hl | msg Hne Hb | Hm He Hlen | p Hm He Hi]; simpl.
  - subst line.
    split; [split; [reflexivity | reflexivity] |].
    split; [split; intros H; discriminate H |].
    split; [split; [intros [p H]; discriminate H
                   | intros (payload & H & _); discriminate H] |].
    split; [split; intros H; discriminate H | discriminate].
  - assert (Hmal : malformed line = true).
    { unfold malformed. apply String.eqb_neq in Hne. rewrite Hne. simpl.
      destruct Hb as [-> | ->]; [reflexivity |].
      now rewrite andb_false_r. }
    assert (Hsh : short_frame line = false).
    { unfold short_frame. destruct Hb as [-> | ->]; [reflexivity |].
      now rewrite andb_false_r. }
    split; [split; [intros H; discriminate H | intros H; contradiction] |].
    split; [split; intros H; [discriminate H
                             | rewrite Hsh in H; discriminate H] |].
    split.
    { split; [intros [p H]; discriminate H |].
      intros (payload & -> & _).
      rewrite frame_startswith, frame_endswith in Hb.
      destruct Hb as [Hb | Hb]; discriminate Hb. }
    split; [split; [intros _; exact Hmal | reflexivity] | discriminate].
  - assert (Hsh : short_frame line = true).
    { unfold short_frame. rewrite Hm, He. simpl. now apply Nat.ltb_lt. }
    assert (Hne : line <> "") by (intros ->; discriminate Hm).
    split; [split; [intros H; discriminate H | intros H; contradiction] |].
    split; [split; [intros _; exact Hsh | reflexivity] |].
    split.
    { split; [intros [p H]; discriminate H |].
      intros (payload & -> & Hp). rewrite slice_frame in Hlen. lia. }
    split; [| discriminate].
    split; [intros H; discriminate H |].
    unfold malformed. rewrite Hm, He, andb_false_r. intros H; discriminate H.
  - assert (Hne : line <> "") by (intros ->; discriminate Hm).
    assert (Hlen : (7 <= String.length (Py.slice 2 2 line))%nat).
    { apply StatusPacket_init_inv in Hi.
      destruct Hi as (b0 & b1 & b2 & b3 & b4 & b5 & b6 & rest & Hp & _).
      rewrite <- ords_length, Hp. simpl. lia. }
    split; [split; [intros H; discriminate H | intros H; contradiction] |].
    split.
    { split; [intros H; discriminate H |].
      unfold short_frame. rewrite Hm, He. simpl. intros H.
      apply Nat.ltb_lt in H. lia. }
    split.
    { split; [| intros _; now exists p].
      intros _. exists (Py.slice 2 2 line).
      split; [now apply frame_shape | exact Hlen]. }
    split; [| discriminate].
    split; [intros H; discriminate H |].
    unfold malformed. rewrite Hm, He, andb_false_r. intros H; discriminate H.
Qed.

(** ** The fields of an accepted packet *)

Section Fields.

Lemma accepted_inv (line : string) (fc fc' : FlowController) (p : StatusPacket) :
  recvPacket line fc = (fc', Return (Some p)) ->
  fc' = accepted p fc
  /\ exists b0 b1 b2 b3 b4 b5 b6 rest,
       Py.ords (Py.slice 2 2 line)
         = b0 :: b1 :: b2 :: b3 :: b4 :: b5 :: b6 :: rest
       /\ p = mkStatusPacket (_ConvertTemp b5 b6) (b3 * 256 + b4) b1 b2.
Proof.
  intros H.
  destruct (recvPacket_cases line fc) as [| msg | | q Hm He Hi];
    try discriminate H.
  injection H as <- <-. split; [reflexivity |].
  now apply StatusPacket_init_inv.
Qed.

Lemma land7_range (ms : Z) : 0 <= Z.land ms 7 <= 7.
Proof.
  change 7 with (Z.ones 3) at 1 2. rewrite Z.land_ones by lia.
  pose proof (Z.mod_pos_bound ms (2 ^ 3)). simpl in *. lia.
Qed.

Lemma ConvertTemp_denotes (ms ls : Z) :
  0 <= ms <= 255 -> 0 <= ls <= 255 ->
  exists q, Float.to_Q (_ConvertTemp ms ls) = Some q
            /\ (q == temperature_spec ms ls)%Q.
Proof.
  intros Hs Hm.
  pose proof temperature_agrees_all as H.
  rewrite forallb_forall in H.
  specialize (H _ (byte_values_spec _ Hs)).
  rewrite forallb_forall in H.
  specialize (H _ (byte_values_spec _ Hm)).
  unfold temperature_agrees in H.
  destruct (Float.to_Q (_ConvertTemp ms ls)) as [q |]; [| discriminate H].
  exists q. split; [reflexivity |]. now apply Qeq_bool_eq.
Qed.

Lemma temperature_spec_range (ms ls : Z) :
  0 <= ls <= 255 ->
  (- (2047 # 16) <= temperature_spec ms ls <= 2047 # 16)%Q.
Proof.
  intros Hl. pose proof (land7_range ms) as H7.
  unfold temperature_spec.
  set (n := Z.land ms 7 * 256 + ls).
  assert (Hn : 0 <= n <= 2047) by (unfold n; lia).
  destruct (Z.land ms 248 =? 0); unfold Qle, Qopp, Qmult, inject_Z; simpl;
    lia.
Qed.

End Fields.

(** Every packet [recvPacket] returns has a tick count of 16 bits and
    fridge and valve states of 8 bits, none of them negative. *)
Theorem accepted_packet_ranges
  (line : string) (fc fc' : FlowController) (p : StatusPacket) :
  recvPacket line fc = (fc', Return (Some p)) ->
  0 <= ticks p <= 65535 /\ 0 <= fridge p <= 255 /\ 0 <= valve p <= 255.
Proof.
  intros H. apply accepted_inv in H.
  destruct H as (_ & b0 & b1 & b2 & b3 & b4 & b5 & b6 & rest & Hp & ->).
  set (s := Py.slice 2 2 line) in *.
  assert (H1 : 0 <= b1 < 256) by (apply (ords_range s 1); now rewrite Hp).
  assert (H2 : 0 <= b2 < 256) by (apply (ords_range s 2); now rewrite Hp).
  assert (H3 : 0 <= b3 < 256) by (apply (ords_range s 3); now rewrite Hp).
  assert (H4 : 0 <= b4 < 256) by (apply (ords_range s 4); now rewrite Hp).
  simpl. lia.
Qed.

Lemma accepted_packet_ranges_witness :
  let p := mkStatusPacket Float.one 517 1 0 in
  0 <= ticks p <= 65535 /\ 0 <= fridge p <= 255 /\ 0 <= valve p <= 255.
Proof.
  intros p.
  apply (accepted_packet_ranges (frame report7) FlowController_init
           (accepted p FlowController_init) p).
  reflexivity.
Defined.

(** The temperature of a packet [recvPacket] returns is decoded from
    payload byte 5 (sign) and payload byte 6 (magnitude); it is a finite
    float, a multiple of 1/16 between -127.9375 and 127.9375. *)
Theorem accepted_packet_temperature
  (line : string) (fc fc' : FlowController) (p : StatusPacket) :
  recvPacket line fc = (fc', Return (Some p)) ->
  let payload := Py.ords (Py.slice 2 2 line) in
  exists b5 b6 q,
    nth_error payload 5 = Some b5 /\ nth_error payload 6 = Some b6
    /\ temp p = _ConvertTemp b5 b6
    /\ Float.to_Q (temp p) = Some q
    /\ (q == temperature_spec b5 b6)%Q
    /\ (- (2047 # 16) <= q <= 2047 # 16)%Q
    /\ exists n : Z, (q * inject_Z 16 == inject_Z n)%Q.
Proof.
  intros H payload. apply accepted_inv in H.
  destruct H as (_ & b0 & b1 & b2 & b3 & b4 & b5 & b6 & rest & Hp & ->).
  set (s := Py.slice 2 2 line) in *.
  assert (H5 : 0 <= b5 < 256) by (apply (ords_range s 5); now rewrite Hp).
  assert (H6 : 0 <= b6 < 256) by (apply (ords_range s 6); now rewrite Hp).
  destruct (ConvertTemp_denotes b5 b6) as (q & Hq & Hspec); [lia | lia |].
  exists b5, b6, q. subst payload. rewrite Hp. simpl.
  split; [reflexivity |]. split; [reflexivity |]. split; [reflexivity |].
  split; [exact Hq |]. split; [exact Hspec |].
  split.
  - rewrite Hspec. apply temperature_spec_range. lia.
  - exists (if Z.land b5 248 =? 0
            then Z.land b5 7 * 256 + b6 else - (Z.land b5 7 * 256 + b6)).
    rewrite Hspec. unfold temperature_spec.
    destruct (Z.land b5 248 =? 0); unfold Qeq, Qopp, Qmult, inject_Z; simpl;
      lia.
Qed.

Lemma accepted_packet_temperature_witness :
  let p := mkStatusPacket Float.one 517 1 0 in
  let payload := Py.ords (Py.slice 2 2 (frame report7)) in
  exists b5 b6 q,
    nth_error payload 5 = Some b5 /\ nth_error payload 6 = Some b6
    /\ temp p = _ConvertTemp b5 b6
    /\ Float.to_Q (temp p) = Some q
    /\ (q == temperature_spec b5 b6)%Q
    /\ (- (2047 # 16) <= q <= 2047 # 16)%Q
    /\ exists n : Z, (q * inject_Z 16 == inject_Z n)%Q.
Proof.
  intros p payload.
  apply (accepted_packet_temperature (frame report7) FlowController_init
           (accepted p FlowController_init) p).
  reflexivity.
Defined.

(** ** Runs of [recvPacket] *)

Section Runs.

Lemma last_cons {A : Type} (l : list A) : forall a d : A,
  last (a :: l) d = last l a.
Proof.
  induction l as [| b l IH]; intros a d; [reflexivity |].
  change (last (a :: b :: l) d) with (last (b :: l) d).
  now rewrite !IH.
Qed.

Lemma recvPackets_length (lines : list string) :
  forall fc, List.length (snd (recvPackets lines fc)) = List.length lines.
Proof.
  induction lines as [| line lines IH]; intros fc; simpl; [reflexivity |].
  destruct (recvPacket line fc) as [fc1 r].
  specialize (IH fc1). destruct (recvPackets lines fc1) as [fc2 rs].
  simpl in *. now rewrite IH.
Qed.

Lemma recvPackets_mixed (lines : list string) :
  forall fc,
    total_ticks (fst (recvPackets lines fc))
      = total_ticks fc + sum_ticks (packets_of (snd (recvPackets lines fc)))
    /\ status (fst (recvPackets lines fc))
       = last (map Some (packets_of (snd (recvPackets lines fc)))) (status fc)
    /\ devpipe_out (fst (recvPackets lines fc)) = devpipe_out fc.
Proof.
  induction lines as [| line lines IH]; intros fc; simpl.
  - unfold sum_ticks. simpl. repeat split. lia.
  - destruct (recvPacket_cases line fc) as [| msg | | p Hm He Hi];
      match goal with
      | |- context [recvPackets lines ?f] =>
          destruct (IH f) as (IH1 & IH2 & IH3);
          destruct (recvPackets lines f) as [fc2 rs]
      end; simpl in *;
      try (split; [exact IH1 | split; [exact IH2 | exact IH3]]).
    split; [| split; [| exact IH3]].
    + rewrite IH1. unfold sum_ticks. simpl. lia.
    + rewrite IH2.
      destruct (map Some (packets_of rs)) as [| a l]; [reflexivity |].
      now rewrite !last_cons.
Qed.

End Runs.

(** Over any run of lines, accepted, dropped or raising, [total_ticks] grows
    by the sum of the ticks of the packets returned and by nothing else; the
    held status is the last packet returned, or what it was when there is
    none; nothing is written to the link; every line gets its result. *)
Theorem recvPackets_accounting (lines : list string) (fc : FlowController) :
  let fc' := fst (recvPackets lines fc) in
  let rs := snd (recvPackets lines fc) in
  total_ticks fc' = total_ticks fc + sum_ticks (packets_of rs)
  /\ status fc' = last (map Some (packets_of rs)) (status fc)
  /\ devpipe_out fc' = devpipe_out fc
  /\ List.length rs = List.length lines.
Proof.
  intros fc' rs. subst fc' rs.
  destruct (recvPackets_mixed lines fc) as (H1 & H2 & H3).
  split; [exact H1 |]. split; [exact H2 |]. split; [exact H3 |].
  apply recvPackets_length.
Qed.

(** ** Queries after a packet *)

Section Queries.

Lemma do_call_total_ticks (c : call) (fc : FlowController) :
  snd (do_call c fc) = false ->
  total_ticks (fst (do_call c fc)) = total_ticks fc.
Proof.
  destruct c as [| | now | | | | | | line]; simpl; intros H;
    try (unfold openValve, closeValve, enableFridge, updateTemp,
           disableFridge, getStatus, stop, readTicks;
         unfold_method; simpl; destruct (_lock fc); reflexivity).
  destruct (recvPacket_cases line fc); simpl in *;
    reflexivity || discriminate H.
Qed.

Lemma do_calls_total_ticks (cs : list call) :
  forall fc,
    snd (do_calls cs fc) = false ->
    total_ticks (fst (do_calls cs fc)) = total_ticks fc.
Proof.
  induction cs as [| c cs IH]; intros fc H; simpl in *; [reflexivity |].
  pose proof (do_call_total_ticks c fc) as H1.
  destruct (do_call c fc) as [fc1 b1]. simpl in H1.
  specialize (IH fc1).
  destruct (do_calls cs fc1) as [fc2 b2]. simpl in *.
  apply orb_false_iff in H. destruct H as [-> ->].
  now rewrite IH, H1.
Qed.

End Queries.

(** Once a frame has been accepted, and until the next one is, whatever
    else is called, [fridgeStatus] returns the fridge byte of that frame and
    [readTicks] the total before it plus its ticks. *)
Theorem queries_after_accepted_frame
  (line : string) (fc fc' : FlowController) (p : StatusPacket)
  (cs : list call) :
  recvPacket line fc = (fc', Return (Some p)) ->
  snd (do_calls cs fc') = false ->
  let fc'' := fst (do_calls cs fc') in
  fridgeStatus fc'' = (fc'', Return (fridge p))
  /\ readTicks fc'' = (fc'', Return (total_ticks fc + ticks p))
  /\ nth_error (Py.ords (Py.slice 2 2 line)) 1 = Some (fridge p).
Proof.
  intros H Hcs fc''. subst fc''.
  pose proof (do_calls_status cs fc' Hcs) as Hs.
  pose proof (do_calls_total_ticks cs fc' Hcs) as Ht.
  apply accepted_inv in H.
  destruct H as (-> & b0 & b1 & b2 & b3 & b4 & b5 & b6 & rest & Hp & ->).
  simpl in Hs, Ht.
  split; [unfold fridgeStatus; now rewrite Hs |].
  split; [unfold readTicks; now rewrite Ht |].
  now rewrite Hp.
Qed.

Lemma queries_after_accepted_frame_witness :
  let p := mkStatusPacket Float.one 517 1 0 in
  let cs := [OpenValve; RecvPacket "Kegboard v1"; CloseValve] in
  let fc'' := fst (do_calls cs (accepted p FlowController_init)) in
  fridgeStatus fc'' = (fc'', Return 1)
  /\ readTicks fc'' = (fc'', Return (0 + 517))
  /\ nth_error (Py.ords (Py.slice 2 2 (frame report7))) 1 = Some 1.
Proof.
  intros p cs fc''.
  apply (queries_after_accepted_frame (frame report7) FlowController_init
           (accepted p FlowController_init) p cs); reflexivity.
Defined.

(** ** The status loop *)

Section Loop.

Lemma recvPacket_QUIT (line : string) (fc : FlowController) :
  QUIT (fst (recvPacket line fc)) = QUIT fc.
Proof. now destruct (recvPacket_cases line fc). Qed.

Lemma recvPacket_returns (line : string) (fc : FlowController) :
  line <> "" -> short_frame line = false ->
  exists r, snd (recvPacket line fc) = Return r.
Proof.
  intros Hne Hs.
  destruct (recvPacket_cases line fc) as [Hl | msg _ _ | Hm He Hlen | p Hm He Hi];
    simpl.
  - contradiction.
  - now eexists.
  - unfold short_frame in Hs. rewrite Hm, He in Hs. simpl in Hs.
    apply Nat.ltb_ge in Hs. lia.
  - now eexists.
Qed.

Lemma status_while_readable (lines : list string) (evs : list event) :
  forall fc,
    QUIT fc = false ->
    (forall line, In line lines -> line <> "" /\ short_frame line = false) ->
    status_while (map Readable lines ++ evs) fc
      = status_while evs (fst (recvPackets lines fc))
    /\ QUIT (fst (recvPackets lines fc)) = false.
Proof.
  unfold status_while.
  induction lines as [| line lines IH]; intros fc HQ Hall; simpl.
  - now split.
  - rewrite HQ. simpl.
    destruct (Hall line (or_introl eq_refl)) as [Hne Hs].
    destruct (recvPacket_returns line fc Hne Hs) as [r Hr].
    pose proof (recvPacket_QUIT line fc) as HQ1.
    destruct (recvPacket line fc) as [fc1 r1]. simpl in Hr, HQ1. subst r1.
    rewrite HQ in HQ1.
    destruct (IH fc1 HQ1 (fun l Hl => Hall l (or_intror Hl))) as [E Q].
    destruct (recvPackets lines fc1) as [fc2 rs]. simpl in *.
    now split.
Qed.

Lemma malformed_not_short (line : string) :
  malformed line = true -> line <> "" /\ short_frame line = false.
Proof.
  unfold malformed, short_frame. intros H.
  apply andb_true_iff in H. destruct H as [Hne Hb].
  apply negb_true_iff in Hne. apply String.eqb_neq in Hne.
  apply negb_true_iff in Hb. rewrite Hb. now split.
Qed.

Lemma recvPackets_malformed (lines : list string) :
  forall fc,
    forallb malformed lines = true ->
    let fc' := fst (recvPackets lines fc) in
    total_ticks fc' = total_ticks fc /\ status fc' = status fc
    /\ devpipe_out fc' = devpipe_out fc /\ stderr fc' = stderr fc
    /\ List.length (log fc') = (List.length (log fc) + List.length lines)%nat
    /\ packets_of (snd (recvPackets lines fc)) = [].
Proof.
  induction lines as [| line lines IH]; intros fc H; simpl in *.
  - repeat split. lia.
  - apply andb_true_iff in H. destruct H as [Hm Hrest].
    destruct (recvPacket_result_malformed line fc Hm) as [msg ->].
    destruct (IH (logged INFO msg fc) Hrest) as (H1 & H2 & H3 & H4 & H5 & H6).
    destruct (recvPackets lines (logged INFO msg fc)) as [fc2 rs].
    simpl in *. rewrite length_app in H5. simpl in H5.
    repeat split; try assumption. lia.
Qed.

End Loop.

(** While no line is empty and none is a well-bounded frame with a short
    payload, the status loop is [recvPacket] called on each readable line in
    turn: it goes on with the rest of the events from the object those calls
    leave. *)
Theorem status_while_iterates_recvPacket
  (lines : list string) (evs : list event) (fc : FlowController) :
  QUIT fc = false ->
  (forall line, In line lines -> line <> "" /\ short_frame line = false) ->
  status_while (map Readable lines ++ evs) fc
    = status_while evs (fst (recvPackets lines fc))
  /\ status_while (map Readable lines) fc
     = (fst (recvPackets lines fc), Blocks).
Proof.
  intros HQ Hall.
  destruct (status_while_readable lines evs fc HQ Hall) as [E Q].
  split; [exact E |].
  destruct (status_while_readable lines [] fc HQ Hall) as [E0 _].
  rewrite app_nil_r in E0. rewrite E0. unfold status_while. simpl.
  now rewrite Q.
Qed.

Lemma status_while_iterates_recvPacket_witness :
  let p := mkStatusPacket Float.one 517 1 0 in
  status_while (map Readable ["Kegboard v1"; frame report7])
    FlowController_init
  = (accepted p (logged INFO "Found board: Kegboard " FlowController_init),
     Blocks).
Proof.
  intros p.
  destruct (status_while_iterates_recvPacket ["Kegboard v1"; frame report7]
              [] FlowController_init eq_refl) as [_ H].
  - intros line [<- | [<- | []]]; split; (discriminate || reflexivity).
  - exact H.
Defined.

(** Malformed lines do not stop the status loop and change nothing but the
    log: after any run of them the loop goes on with the same [total_ticks],
    held status and link output, one log record richer per line. *)
Theorem status_loop_skips_malformed
  (lines : list string) (evs : list event) (fc : FlowController) :
  QUIT fc = false ->
  forallb malformed lines = true ->
  exists fc',
    status_while (map Readable lines ++ evs) fc = status_while evs fc'
    /\ QUIT fc' = false
    /\ total_ticks fc' = total_ticks fc /\ status fc' = status fc
    /\ devpipe_out fc' = devpipe_out fc /\ stderr fc' = stderr fc
    /\ List.length (log fc') = (List.length (log fc) + List.length lines)%nat.
Proof.
  intros HQ Hm.
  assert (Hall : forall line, In line lines ->
                              line <> "" /\ short_frame line = false).
  { intros line Hin. apply malformed_not_short.
    rewrite forallb_forall in Hm. now apply Hm. }
  destruct (status_while_readable lines evs fc HQ Hall) as [E Q].
  destruct (recvPackets_malformed lines fc Hm) as (H1 & H2 & H3 & H4 & H5 & _).
  exists (fst (recvPackets lines fc)).
  repeat split; assumption.
Qed.

Lemma status_loop_skips_malformed_witness :
  exists fc',
    status_while
      (map Readable ["garbage"; "M:abc"; "Kegboard v1"]
       ++ [Readable (frame report7)]) FlowController_init
    = status_while [Readable (frame report7)] fc'
    /\ QUIT fc' = false
    /\ total_ticks fc' = total_ticks FlowController_init
    /\ status fc' = status FlowController_init
    /\ devpipe_out fc' = devpipe_out FlowController_init
    /\ stderr fc' = stderr FlowController_init
    /\ List.length (log fc')
       = (List.length (log FlowController_init) + 3)%nat.
Proof.
  apply (status_loop_skips_malformed ["garbage"; "M:abc"; "Kegboard v1"]
           [Readable (frame report7)] FlowController_init);
    reflexivity.
Defined.

(** A well-bounded frame with fewer than seven payload bytes, the
    documented five-byte report among them, ends the status loop: the
    [IndexError] is caught by the bare [except], a packet read error is
    logged, the traceback is printed, and the events that follow are never
    looked at. *)
Theorem short_frame_ends_status_loop
  (line : string) (rest : list event) (fc : FlowController) :
  QUIT fc = false ->
  short_frame line = true ->
  run (Readable line :: rest) fc
    = (printed IndexError
         (logged ERROR "packet read error"
            (logged INFO "status loop starting" fc)),
       Return tt).
Proof.
  intros HQ Hs.
  unfold run, statusLoop, try_except, status_while, printed, logged.
  unfold_method. simpl. rewrite HQ. simpl.
  rewrite (recvPacket_result_short line _ Hs). reflexivity.
Qed.

Lemma short_frame_ends_status_loop_witness :
  run [Readable (frame report5); Readable (frame report7)]
    FlowController_init
  = (printed IndexError
       (logged ERROR "packet read error"
          (logged INFO "status loop starting" FlowController_init)),
     Return tt).
Proof.
  apply (short_frame_ends_status_loop (frame report5)
           [Readable (frame report7)] FlowController_init);
    reflexivity.
Defined.

(** [stop] with the lock free sets [QUIT] and writes one status request.
    It does not cut the wait short: the status loop finishes the [select] in
    progress, hands a readable line to [recvPacket] as usual, and only then
    tests [QUIT] and returns, having looked at that one event and at none
    after it.  A loop started with [QUIT] set looks at no event at all. *)
Theorem stop_ends_status_loop
  (line : string) (evs : list event) (fc : FlowController) :
  (QUIT fc = false -> _lock fc = false ->
   let fc1 := stopped (logged INFO "status loop starting" fc) in
   stop fc = (stopped fc, Return tt)
   /\ run [Stop] fc = (fc1, Blocks)
   /\ run (Stop :: Timeout :: evs) fc
      = (logged INFO "status loop exiting" fc1, Return tt)
   /\ run (Stop :: Readable line :: evs) fc
      = match recvPacket line fc1 with
        | (fc2, Return _) => (logged INFO "status loop exiting" fc2, Return tt)
        | (fc2, Raise e) =>
            (printed e (logged ERROR "packet read error" fc2), Return tt)
        | (fc2, Blocks) => (fc2, Blocks)
        end)
  /\ (QUIT fc = true ->
      run evs fc
      = (logged INFO "status loop exiting"
           (logged INFO "status loop starting" fc),
         Return tt)).
Proof.
  assert (Hrun : forall evs0 fc0,
             run evs0 fc0
             = match status_while evs0
                       (logged INFO "status loop starting" fc0) with
               | (fc2, Return _) =>
                   (logged INFO "status loop exiting" fc2, Return tt)
               | (fc2, Raise e) =>
                   (printed e (logged ERROR "packet read error" fc2),
                    Return tt)
               | (fc2, Blocks) => (fc2, Blocks)
               end).
  { intros evs0 fc0. unfold run, statusLoop, try_except. unfold_method.
    fold (logged INFO "status loop starting" fc0).
    now destruct (status_while evs0 _) as [fc2 [[] | e |]]. }
  split.
  - intros HQ HL fc1.
    set (fc0 := logged INFO "status loop starting" fc) in *.
    assert (HQ0 : QUIT fc0 = false) by exact HQ.
    assert (Hstop : fst (stop fc0) = fc1).
    { unfold fc1, stop, getStatus, stopped. unfold_method. simpl.
      now rewrite HL. }
    assert (Hsel : forall evs0,
               status_while (Stop :: evs0) fc0 = status_select true evs0 fc1).
    { intros evs0. unfold status_while. cbn [status_select negb andb].
      now rewrite HQ0, Hstop. }
    assert (HQ1 : QUIT fc1 = true) by reflexivity.
    split; [| split; [| split]].
    + unfold stop, getStatus, stopped. unfold_method. simpl. now rewrite HL.
    + rewrite Hrun. fold fc0. rewrite Hsel. reflexivity.
    + rewrite Hrun. fold fc0. rewrite Hsel.
      cbn [status_select negb andb].
      destruct evs; cbn [status_select negb andb]; rewrite HQ1; reflexivity.
    + rewrite Hrun. fold fc0. rewrite Hsel.
      cbn [status_select negb andb].
      destruct (recvPacket_cases line fc1)
        as [Hl | msg Hne Hb | Hm He Hlen | p Hm He Hi];
        try reflexivity.
      * destruct evs; cbn [status_select negb andb];
          cbn [QUIT logged]; rewrite HQ1; reflexivity.
      * destruct evs; cbn [status_select negb andb];
          cbn [QUIT accepted]; rewrite HQ1; reflexivity.
  - intros HQ. rewrite Hrun. unfold status_while.
    destruct evs as [| ev evs]; cbn [status_select negb andb];
      cbn [QUIT logged]; rewrite HQ; reflexivity.
Qed.

Lemma stop_ends_status_loop_witness :
  let fc1 :=
    stopped (logged INFO "status loop starting" FlowController_init) in
  let p := mkStatusPacket Float.one 517 1 0 in
  run [Stop; Readable (frame report7); Readable (frame report7)]
    FlowController_init
  = (logged INFO "status loop exiting" (accepted p fc1), Return tt)
  /\ run [Stop; Readable (frame report5)] FlowController_init
     = (printed IndexError (logged ERROR "packet read error" fc1), Return tt)
  /\ run [Readable (frame report7)] (stopped FlowController_init)
     = (logged INFO "status loop exiting"
          (logged INFO "status loop starting" (stopped FlowController_init)),
        Return tt).
Proof.
  intros fc1 p.
  destruct (stop_ends_status_loop (frame report7) [Readable (frame report7)]
              FlowController_init) as [H1 _].
  destruct (H1 eq_refl eq_refl) as (_ & _ & _ & H7).
  destruct (stop_ends_status_loop (frame report5) [] FlowController_init)
    as [H2 _].
  destruct (H2 eq_refl eq_refl) as (_ & _ & _ & H5).
  split; [exact H7 |]. split; [exact H5 |].
  apply (proj2 (stop_ends_status_loop "" [Readable (frame report7)]
                  (stopped FlowController_init))).
  reflexivity.
Defined.

(** ** Commands *)

Section CommandFacts.

Ltac run_command fc :=
  unfold openValve, closeValve, enableFridge, updateTemp, disableFridge,
    getStatus, stop, readTicks;
  unfold_method; simpl; destruct (_lock fc) eqn:?; simpl.

Lemma do_call_writes (c : call) (fc : FlowController) :
  _lock fc = false ->
  devpipe_out (fst (do_call c fc)) = devpipe_out fc ++ writes c.
Proof.
  intros H. destruct c as [| | now | | | | | | line]; simpl;
    try (run_command fc; (discriminate || reflexivity)).
  - now rewrite app_nil_r.
  - rewrite app_nil_r. now destruct (recvPacket_cases line fc).
Qed.

Lemma do_calls_writes (cs : list call) :
  forall fc,
    _lock fc = false ->
    devpipe_out (fst (do_calls cs fc)) = devpipe_out fc ++ flat_map writes cs.
Proof.
  induction cs as [| c cs IH]; intros fc H; simpl.
  - now rewrite app_nil_r.
  - pose proof (do_call_writes c fc H) as Hw.
    pose proof (do_call_lock c fc H) as Hl.
    destruct (do_call c fc) as [fc1 b1]. simpl in Hw, Hl.
    specialize (IH fc1 Hl).
    destruct (do_calls cs fc1) as [fc2 b2]. simpl in *.
    now rewrite IH, Hw, app_assoc.
Qed.

Lemma writes_one_byte (cs : list call) :
  Forall (fun s => String.length s = 1%nat) (flat_map writes cs).
Proof.
  induction cs as [| c cs IH]; simpl; [constructor |].
  apply Forall_app. split; [| exact IH].
  destruct c; simpl; repeat constructor.
Qed.

Lemma do_call_QUIT (c : call) (fc : FlowController) :
  QUIT (fst (do_call c fc)) = QUIT fc || is_stop_call c.
Proof.
  destruct c as [| | now | | | | | | line]; simpl;
    try (run_command fc; now rewrite ?orb_false_r, ?orb_true_r).
  rewrite orb_false_r. now destruct (recvPacket_cases line fc).
Qed.

Lemma do_call_last_fridge_time (c : call) (fc : FlowController) :
  last_fridge_time (fst (do_call c fc))
  = match c with EnableFridge now => now | _ => last_fridge_time fc end.
Proof.
  destruct c as [| | now | | | | | | line]; simpl;
    try (run_command fc; reflexivity).
  now destruct (recvPacket_cases line fc).
Qed.

Lemma do_calls_attributes (cs : list call) :
  forall fc,
    QUIT (fst (do_calls cs fc)) = QUIT fc || existsb is_stop_call cs
    /\ last_fridge_time (fst (do_calls cs fc))
       = last_enable_time cs (last_fridge_time fc).
Proof.
  induction cs as [| c cs IH]; intros fc; simpl.
  - now rewrite orb_false_r.
  - pose proof (do_call_QUIT c fc) as HQ.
    pose proof (do_call_last_fridge_time c fc) as HT.
    destruct (do_call c fc) as [fc1 b1]. simpl in HQ, HT.
    destruct (IH fc1) as [IHQ IHT].
    destruct (do_calls cs fc1) as [fc2 b2]. simpl in *.
    rewrite IHQ, IHT, HQ, HT, orb_assoc. split; [reflexivity |].
    unfold last_enable_time. simpl. reflexivity.
Qed.

End CommandFacts.

(** After [__init__] the link has received the fridge-off byte; every
    command that completes appends its one command byte and nothing else, in
    the order of the calls, while [readTicks] and [recvPacket] write nothing;
    and the lock is free again after every call. *)
Theorem commands_write_one_byte_each (cs : list call) (fc : FlowController) :
  _lock fc = false ->
  devpipe_out (fst (do_calls cs fc)) = devpipe_out fc ++ flat_map writes cs
  /\ Forall (fun s => String.length s = 1%nat) (flat_map writes cs)
  /\ _lock (fst (do_calls cs fc)) = false
  /\ devpipe_out (fst (do_calls cs FlowController_init))
     = CMD_FRIDGEOFF :: flat_map writes cs.
Proof.
  intros H.
  split; [now apply do_calls_writes |].
  split; [apply writes_one_byte |].
  split; [now apply do_calls_lock |].
  now rewrite do_calls_writes.
Qed.

Lemma commands_write_one_byte_each_witness :
  devpipe_out
    (fst (do_calls [OpenValve; RecvPacket (frame report7); ReadTicks;
                    CloseValve; EnableFridge (5 # 1); GetStatus]
            FlowController_init))
  = [CMD_FRIDGEOFF; CMD_VALVEON; CMD_VALVEOFF; CMD_FRIDGEON; CMD_STATUS].
Proof.
  apply (commands_write_one_byte_each
           [OpenValve; RecvPacket (frame report7); ReadTicks;
            CloseValve; EnableFridge (5 # 1); GetStatus]
           FlowController_init).
  reflexivity.
Defined.

(** While the lock is held no command writes to the link: each waits in
    [acquire].  Two of them have acted before they wait: [enableFridge] has
    already recorded the time, and [stop] has already set [QUIT]. *)
Theorem commands_wait_for_lock (now : Q) (fc : FlowController) :
  _lock fc = true ->
  openValve fc = (fc, Blocks)
  /\ closeValve fc = (fc, Blocks)
  /\ updateTemp fc = (fc, Blocks)
  /\ disableFridge fc = (fc, Blocks)
  /\ getStatus fc = (fc, Blocks)
  /\ enableFridge now fc = (fst (set_last_fridge_time now fc), Blocks)
  /\ stop fc = (fst (set_QUIT true fc), Blocks)
  /\ devpipe_out (fst (enableFridge now fc)) = devpipe_out fc
  /\ devpipe_out (fst (stop fc)) = devpipe_out fc.
Proof.
  intros H.
  unfold openValve, closeValve, enableFridge, updateTemp, disableFridge,
    getStatus, stop.
  unfold_method. simpl. rewrite H. repeat split.
Qed.

Lemma commands_wait_for_lock_witness :
  let fc := mkFlowController false true 0 (0 # 1) None [] [] [] in
  snd (openValve fc) = Blocks
  /\ last_fridge_time (fst (enableFridge (7 # 1) fc)) = (7 # 1)
  /\ QUIT (fst (stop fc)) = true
  /\ devpipe_out (fst (stop fc)) = [].
Proof.
  intros fc.
  destruct (commands_wait_for_lock (7 # 1) fc eq_refl)
    as (H1 & _ & _ & _ & _ & H6 & H7 & _ & H9).
  rewrite H1, H6, H7. repeat split.
Defined.

(** Over any run of calls, [QUIT] is set exactly when it was set before or
    the run contains a [stop], so nothing clears it; and [last_fridge_time]
    is the time of the last [enableFridge] of the run, or what it was when
    there is none. *)
Theorem calls_keep_QUIT_and_fridge_time (cs : list call) (fc : FlowController) :
  QUIT (fst (do_calls cs fc)) = QUIT fc || existsb is_stop_call cs
  /\ last_fridge_time (fst (do_calls cs fc))
     = last_enable_time cs (last_fridge_time fc).
Proof. apply do_calls_attributes. Qed.

(** ** The simulator over runs of calls *)

Section SimulatorRuns.

Import FlowSimulator.

Lemma sim_run_app (cs1 cs2 : list sim_call) (s : t) :
  sim_run (cs1 ++ cs2) s = sim_run cs2 (sim_run cs1 s).
Proof. unfold sim_run. apply fold_left_app. Qed.

Lemma sim_run_fridge (cs : list sim_call) : forall s,
  forallb (fun c => negb (is_fridge_call c)) cs = true ->
  fridge (sim_run cs s) = fridge s.
Proof.
  induction cs as [| c cs IH]; intros s H; simpl in *; [reflexivity |].
  apply andb_true_iff in H. destruct H as [Hc H].
  rewrite (IH _ H). destruct c; (discriminate Hc || reflexivity).
Qed.

Lemma sim_run_valve (cs : list sim_call) : forall s,
  forallb (fun c => negb (is_valve_call c)) cs = true ->
  valve (sim_run cs s) = valve s.
Proof.
  induction cs as [| c cs IH]; intros s H; simpl in *; [reflexivity |].
  apply andb_true_iff in H. destruct H as [Hc H].
  rewrite (IH _ H). destruct c; (discriminate Hc || reflexivity).
Qed.

Lemma sim_run_open_time (cs : list sim_call) : forall s,
  forallb (fun c => negb (is_open_call c)) cs = true ->
  open_time (sim_run cs s) = open_time s.
Proof.
  induction cs as [| c cs IH]; intros s H; simpl in *; [reflexivity |].
  apply andb_true_iff in H. destruct H as [Hc H].
  rewrite (IH _ H). destruct c; (discriminate Hc || reflexivity).
Qed.

Lemma sim_run_ticks (cs : list sim_call) : forall s,
  ticks (sim_run cs s) = ticks s.
Proof.
  induction cs as [| c cs IH]; intros s; simpl; [reflexivity |].
  rewrite IH. now destruct c.
Qed.

End SimulatorRuns.

(** The simulator's getters show the last command of their kind: after
    [enableFridge] the fridge status is 1 and after [disableFridge] 0,
    until the next fridge command; after [openValve] the valve is 1 and
    after [closeValve] 0, until the next valve command.  The [ticks]
    attribute is never written. *)
Theorem simulator_getters_reflect_last_command
  (cs1 cs2 : list sim_call) (now : Float.float) (s : FlowSimulator.t) :
  (forallb (fun c => negb (is_fridge_call c)) cs2 = true ->
   FlowSimulator.fridgeStatus (sim_run (cs1 ++ SimEnableFridge :: cs2) s) = 1
   /\ FlowSimulator.fridgeStatus (sim_run (cs1 ++ SimDisableFridge :: cs2) s)
      = 0)
  /\ (forallb (fun c => negb (is_valve_call c)) cs2 = true ->
      FlowSimulator.valve (sim_run (cs1 ++ SimOpenValve now :: cs2) s) = 1
      /\ FlowSimulator.valve (sim_run (cs1 ++ SimCloseValve :: cs2) s) = 0)
  /\ FlowSimulator.ticks (sim_run cs1 s) = FlowSimulator.ticks s.
Proof.
  split; [| split].
  - intros H. unfold FlowSimulator.fridgeStatus.
    rewrite !sim_run_app. simpl. now rewrite !sim_run_fridge.
  - intros H. rewrite !sim_run_app. simpl. now rewrite !sim_run_valve.
  - apply sim_run_ticks.
Qed.

Lemma simulator_getters_reflect_last_command_witness :
  let s := FlowSimulator.init in
  FlowSimulator.fridgeStatus
    (sim_run ([SimDisableFridge] ++ SimEnableFridge
              :: [SimOpenValve (Float.of_int 3); SimStop]) s) = 1
  /\ FlowSimulator.valve
       (sim_run ([SimOpenValve (Float.of_int 1)] ++ SimCloseValve
                 :: [SimEnableFridge; SimStart]) s) = 0.
Proof.
  intros s. split.
  - apply (proj1 (simulator_getters_reflect_last_command
                    [SimDisableFridge] [SimOpenValve (Float.of_int 3); SimStop]
                    (Float.of_int 0) s)).
    reflexivity.
  - apply (proj1 (proj2 (simulator_getters_reflect_last_command
                           [SimOpenValve (Float.of_int 1)]
                           [SimEnableFridge; SimStart]
                           (Float.of_int 0) s))).
    reflexivity.
Defined.

(** After the valve has been opened at [t0], and until it is opened again,
    whatever was called before or since, a reading at a later time [now]
    (both below 2^40 s) returns a count [n >= 0] that is 50 ticks per second
    of the time since [t0], to within one tick and the rounding of the
    binary64 product: [50 T - 1 - 1/128 < n <= 50 T + 1/128] for
    [T = now - t0].  Nothing is carried over from an earlier pour, and the
    fridge commands and [closeValve] do not touch the count. *)
Theorem simulator_ticks_after_open
  (cs1 cs2 : list sim_call) (t0 now : Float.float) (q0 q : Q)
  (s : FlowSimulator.t) :
  forallb (fun c => negb (is_open_call c)) cs2 = true ->
  Float.is_time t0 = true -> Float.is_time now = true ->
  Float.to_Q t0 = Some q0 -> Float.to_Q now = Some q ->
  (q0 <= q)%Q -> (q < inject_Z (2 ^ 40))%Q ->
  exists n,
    FlowSimulator.readTicks now (sim_run (cs1 ++ SimOpenValve t0 :: cs2) s)
    = Return n
    /\ 0 <= n
    /\ (inject_Z 50 * (q - q0) - 1 - (1 # 128) < inject_Z n)%Q
    /\ (inject_Z n <= inject_Z 50 * (q - q0) + (1 # 128))%Q.
Proof.
  intros H H0 Hn Q0 Qn L B.
  pose proof scale_eq as HS.
  assert (Ho : FlowSimulator.open_time
                 (sim_run (cs1 ++ SimOpenValve t0 :: cs2) s) = t0).
  { rewrite sim_run_app. simpl. now rewrite sim_run_open_time. }
  assert (B0 : (q0 < inject_Z (2 ^ 40))%Q) by lra.
  destruct (readTicks_rational now
              (sim_run (cs1 ++ SimOpenValve t0 :: cs2) s) q q0)
    as (R & E & E0 & Sn & S0); rewrite ?Ho; try assumption.
  rewrite Ho in *.
  exists (ticksZ (SV now - SV t0)). split; [exact R |].
  split; [apply ticksZ_nonneg |].
  pose proof (Qle_scaled _ _ _ _ E0 E L) as Hle.
  destruct (ticksZ_bounds (SV now - SV t0)) as [Lo Up]; [lia |].
  apply (ticks_bounds_Q q q0 (SV now) (SV t0)); assumption.
Qed.

(** A first pour starts at 10.0 s; the valve is opened again at 1000.0 s;
    the reading at 1002.5 s is 125. *)
Lemma simulator_ticks_after_open_witness :
  let s := sim_run ([SimOpenValve (Float.of_int 10); SimCloseValve]
                    ++ SimOpenValve (Float.of_int 1000)
                       :: [SimEnableFridge; SimCloseValve])
             FlowSimulator.init in
  (exists n,
     FlowSimulator.readTicks (Float.of_dyadic 2005 (-1)) s = Return n
     /\ 0 <= n
     /\ (inject_Z 50 * ((2005 # 2) - (1000 # 1)) - 1 - (1 # 128)
         < inject_Z n)%Q
     /\ (inject_Z n
         <= inject_Z 50 * ((2005 # 2) - (1000 # 1)) + (1 # 128))%Q)
  /\ FlowSimulator.readTicks (Float.of_dyadic 2005 (-1)) s = Return 125.
Proof.
  intros s. split; [| reflexivity].
  destruct (simulator_ticks_after_open
              [SimOpenValve (Float.of_int 10); SimCloseValve]
              [SimEnableFridge; SimCloseValve]
              (Float.of_int 1000) (Float.of_dyadic 2005 (-1)) _ _
              FlowSimulator.init eq_refl eq_refl eq_refl eq_refl eq_refl)
    as (n & R & N0 & Lo & Up).
  - apply Qle_bool_imp_le. vm_compute. reflexivity.
  - unfold Qlt. vm_compute. reflexivity.
  - exists n. split; [exact R |]. split; [exact N0 |].
    match type of Up with
    | (_ <= _ * (?a - ?b) + _)%Q =>
        assert (Ea : (a == 2005 # 2)%Q) by (vm_compute; reflexivity);
        assert (Eb : (b == 1000 # 1)%Q) by (vm_compute; reflexivity);
        set (qa := a) in *; set (qb := b) in *
    end.
    clearbody qa qb. rewrite Ea, Eb in Lo, Up. split; assumption.
Defined.

(** For time stamps below 2^1000 s both readings return; the reading is
    never negative, is 0 while the clock has not passed the opening time,
    and never goes down as the clock goes on. *)
Theorem simulator_readTicks_monotone
  (t1 t2 : Float.float) (q1 q2 qo : Q) (s : FlowSimulator.t) :
  Float.is_time (FlowSimulator.open_time s) = true ->
  Float.is_time t1 = true -> Float.is_time t2 = true ->
  Float.to_Q (FlowSimulator.open_time s) = Some qo ->
  Float.to_Q t1 = Some q1 -> Float.to_Q t2 = Some q2 ->
  (qo < inject_Z (2 ^ 1000))%Q -> (q1 < inject_Z (2 ^ 1000))%Q ->
  (q2 < inject_Z (2 ^ 1000))%Q ->
  exists n1 n2,
    FlowSimulator.readTicks t1 s = Return n1
    /\ FlowSimulator.readTicks t2 s = Return n2
    /\ 0 <= n1
    /\ ((q1 <= qo)%Q -> n1 = 0)
    /\ ((q1 <= q2)%Q -> n1 <= n2).
Proof.
  intros Ho H1 H2 Qo Q1 Q2 Bo B1 B2.
  pose proof (to_Q_SV _ _ Ho Qo) as Eo.
  pose proof (to_Q_SV _ _ H1 Q1) as E1.
  pose proof (to_Q_SV _ _ H2 Q2) as E2.
  assert (So := Qlt_scaled_bound _ _ 1000 ltac:(lia) Eo Bo).
  assert (S1 := Qlt_scaled_bound _ _ 1000 ltac:(lia) E1 B1).
  assert (S2 := Qlt_scaled_bound _ _ 1000 ltac:(lia) E2 B2).
  exists (ticksZ (SV t1 - SV (FlowSimulator.open_time s))),
         (ticksZ (SV t2 - SV (FlowSimulator.open_time s))).
  split; [now apply readTicks_scaled |].
  split; [now apply readTicks_scaled |].
  split; [apply ticksZ_nonneg |].
  split.
  - intros L. apply ticksZ_nonpos.
    pose proof (Qle_scaled _ _ _ _ E1 Eo L). lia.
  - intros L. apply ticksZ_mono.
    pose proof (Qle_scaled _ _ _ _ E1 E2 L). lia.
Qed.

(** The valve is opened at 1000.0 s: the reading is 0 at 999.0 s and not
    smaller at 1001.0 s. *)
Lemma simulator_readTicks_monotone_witness :
  let s := FlowSimulator.openValve (Float.of_int 1000) FlowSimulator.init in
  exists n1 n2,
    FlowSimulator.readTicks (Float.of_int 999) s = Return n1
    /\ FlowSimulator.readTicks (Float.of_int 1001) s = Return n2
    /\ n1 = 0 /\ n1 <= n2.
Proof.
  intros s.
  destruct (simulator_readTicks_monotone
              (Float.of_int 999) (Float.of_int 1001) _ _ _ s
              eq_refl eq_refl eq_refl eq_refl eq_refl eq_refl)
    as (n1 & n2 & R1 & R2 & _ & H0 & Hle).
  - unfold Qlt. vm_compute. reflexivity.
  - unfold Qlt. vm_compute. reflexivity.
  - unfold Qlt. vm_compute. reflexivity.
  - exists n1, n2. split; [exact R1 |]. split; [exact R2 |].
    split; [apply H0 | apply Hle];
      apply Qle_bool_imp_le; vm_compute; reflexivity.
Defined.

(** ** How the status loop ends *)

Section LoopExit.

Lemma stop_stderr (fc : FlowController) :
  stderr (fst (stop fc)) = stderr fc /\ QUIT (fst (stop fc)) = true.
Proof.
  unfold stop, getStatus. unfold_method. simpl. now destruct (_lock fc).
Qed.

Lemma status_select_exit (evs : list event) :
  forall (w : bool) (fc : FlowController),
    stderr (fst (status_select w evs fc)) = stderr fc
    /\ match snd (status_select w evs fc) with
       | Return _ => QUIT (fst (status_select w evs fc)) = true
       | Raise e => e = SystemExit 1 \/ e = IndexError
       | Blocks => True
       end.
Proof.
  induction evs as [| ev evs IH]; intros w fc; simpl.
  - destruct (negb w && QUIT fc) eqn:HQ; simpl; [| now split].
    apply andb_true_iff in HQ. now split.
  - destruct (negb w && QUIT fc) eqn:HQ.
    { simpl. apply andb_true_iff in HQ. now split. }
    destruct ev as [| | line].
    + destruct (IH true (fst (stop fc))) as [H1 H2].
      destruct (stop_stderr fc) as [Hs _].
      split; [now rewrite H1 | exact H2].
    + apply IH.
    + destruct (recvPacket_cases line fc)
        as [Hl | msg Hne Hb | Hm He Hlen | p Hm He Hi]; simpl.
      * split; [reflexivity | now left].
      * destruct (IH false (logged INFO msg fc)) as [H1 H2]. now split.
      * split; [reflexivity | now right].
      * destruct (IH false (accepted p fc)) as [H1 H2]. now split.
Qed.

Lemma status_while_exit (evs : list event) (fc : FlowController) :
  stderr (fst (status_while evs fc)) = stderr fc
  /\ match snd (status_while evs fc) with
     | Return _ => QUIT (fst (status_while evs fc)) = true
     | Raise e => e = SystemExit 1 \/ e = IndexError
     | Blocks => True
     end.
Proof. apply status_select_exit. Qed.

End LoopExit.

(** No exception leaves [run].  It returns only after [QUIT] was seen set,
    having logged that the loop exits, or after it caught the [SystemExit]
    of an end of stream or the [IndexError] of a short frame, having logged
    a packet read error and printed that one traceback; otherwise it is
    still waiting in [select], with nothing printed. *)
Theorem status_loop_exits (evs : list event) (fc : FlowController) :
  match snd (run evs fc) with
  | Raise _ => False
  | Blocks => stderr (fst (run evs fc)) = stderr fc
  | Return _ =>
      (QUIT (fst (run evs fc)) = true
       /\ stderr (fst (run evs fc)) = stderr fc
       /\ exists l,
            log (fst (run evs fc)) = l ++ [(INFO, "status loop exiting")])
      \/ (exists e,
            (e = SystemExit 1 \/ e = IndexError)
            /\ stderr (fst (run evs fc)) = stderr fc ++ [e]
            /\ exists l,
                 log (fst (run evs fc)) = l ++ [(ERROR, "packet read error")])
  end.
Proof.
  unfold run, statusLoop, try_except. unfold_method.
  destruct (status_while_exit evs (logged INFO "status loop starting" fc))
    as [Hs Hr].
  unfold logged in Hs, Hr.
  destruct (status_while evs _) as [fc1 [[] | e |]]; simpl in *.
  - left. split; [exact Hr |]. split; [exact Hs |]. now eexists.
  - right. exists e. split; [exact Hr |]. split; [now rewrite Hs |].
    now eexists.
  - exact Hs.
Qed.
